(** * Ai-iterator: the response normalizer and the request orchestrator

    A shallow embedding of [src/actions.ts] (the server action
    [iterateCode] and its helper [safeJsonParse]) and of the HTTP route
    handler ([POST] and its own copy of [safeJsonParse]), with the
    properties of the specification stated over it.

    JavaScript strings are sequences of UTF-16 code units, [list N] here.
    The values the program handles are the values [JSON.parse] builds,
    together with [undefined].  Objects are finite maps from property
    names to values. *)

From Stdlib Require Import NArith ZArith Ascii String Lia.
From stdpp Require Import gmap list strings.

Local Open Scope N_scope.

(** ** Strings *)

Abbreviation jsstring := (list N).

(** The code unit of an ASCII character, and the JavaScript string of an
    ASCII literal. *)
Definition ch (a : ascii) : N := N_of_ascii a.
Arguments ch a%_char : simpl never.

Definition js (s : string) : jsstring := map N_of_ascii (String.list_ascii_of_string s).
Arguments js s%_string.

Definition quote : N := 34.
Definition backslash : N := 92.
Definition lbrace : N := ch "{".
Definition rbrace : N := ch "}".
Definition lbracket : N := ch "[".
Definition rbracket : N := ch "]".
Definition comma : N := ch ",".
Definition colon : N := ch ":".
Arguments quote : simpl never.
Arguments backslash : simpl never.
Arguments lbrace : simpl never.
Arguments rbrace : simpl never.
Arguments lbracket : simpl never.
Arguments rbracket : simpl never.
Arguments comma : simpl never.
Arguments colon : simpl never.

(** [jstr s] is the JSON string literal of an ASCII text [s] that needs no
    escape: [s] between two double quotes. *)
Definition jstr (s : string) : jsstring := quote :: js s ++ [quote].
Arguments jstr s%_string.

(** ** Values *)

(** A JSON number literal, kept as the exact decimal it denotes:
    [(-1)^negative * mantissa * 10^exp10].  The engine rounds it to the
    nearest IEEE double; the program only ever asks whether the result is
    zero, which [is_zero] answers exactly. *)
Record decimal := Decimal { negative : bool; mantissa : N; exp10 : Z }.

#[warnings="-register-all"]
Inductive value :=
| Undefined
| Null
| Bool (b : bool)
| Num (d : decimal)
| Str (s : jsstring)
| Arr (l : list value)
| Obj (m : gmap jsstring value).

(** A decimal rounds to (plus or minus) zero exactly when its magnitude is
    at most [2^-1075], half of the least positive double: ties go to the
    even neighbour, which is zero. *)
Definition is_zero (d : decimal) : bool :=
  if (0 <=? exp10 d)%Z then mantissa d =? 0
  else (Z.of_N (mantissa d) * 2 ^ 1075 <=? 10 ^ (- exp10 d))%Z.

(** ToBoolean. *)
Definition truthy (v : value) : bool :=
  match v with
  | Undefined | Null => false
  | Bool b => b
  | Num d => negb (is_zero d)
  | Str s => match s with [] => false | _ => true end
  | Arr _ | Obj _ => true
  end.

(** [a || b] on values. *)
Definition or_else (a b : value) : value := if truthy a then a else b.

(** ** JSON.parse *)

Definition is_ws (c : N) : bool :=
  (c =? 32) || (c =? 9) || (c =? 10) || (c =? 13).

Fixpoint skip_ws (s : jsstring) : jsstring :=
  match s with
  | c :: s' => if is_ws c then skip_ws s' else s
  | [] => []
  end.

Definition digit (c : N) : option N :=
  if (48 <=? c) && (c <=? 57) then Some (c - 48) else None.

Definition hex_digit (c : N) : option N :=
  if (48 <=? c) && (c <=? 57) then Some (c - 48)
  else if (97 <=? c) && (c <=? 102) then Some (c - 87)
  else if (65 <=? c) && (c <=? 70) then Some (c - 55)
  else None.

(** The character a one-letter escape stands for. *)
Definition escape (e : N) : option N :=
  if e =? quote then Some quote
  else if e =? backslash then Some backslash
  else if e =? ch "/" then Some (ch "/")
  else if e =? ch "b" then Some 8
  else if e =? ch "f" then Some 12
  else if e =? ch "n" then Some 10
  else if e =? ch "r" then Some 13
  else if e =? ch "t" then Some 9
  else None.

(** The characters of a string literal after its opening quote, up to and
    including the closing quote; [None] is a syntax error. *)
Fixpoint string_chars (s : jsstring) : option (jsstring * jsstring) :=
  match s with
  | [] => None
  | c :: s1 =>
    if c =? quote then Some ([], s1)
    else if c =? backslash then
      match s1 with
      | [] => None
      | e :: s2 =>
        if e =? ch "u" then
          match s2 with
          | h1 :: h2 :: h3 :: h4 :: s3 =>
            match hex_digit h1, hex_digit h2, hex_digit h3, hex_digit h4 with
            | Some a, Some b, Some c', Some d =>
              match string_chars s3 with
              | Some (str, rest) => Some ((((a * 16 + b) * 16 + c') * 16 + d) :: str, rest)
              | None => None
              end
            | _, _, _, _ => None
            end
          | _ => None
          end
        else
          match escape e with
          | Some u =>
            match string_chars s2 with
            | Some (str, rest) => Some (u :: str, rest)
            | None => None
            end
          | None => None
          end
      end
    else if c <? 32 then None
    else
      match string_chars s1 with
      | Some (str, rest) => Some (c :: str, rest)
      | None => None
      end
  end.

(** A run of decimal digits: the number read so far, how many digits were
    read, and what follows. *)
Fixpoint digits (s : jsstring) (acc : N) (n : nat) : N * nat * jsstring :=
  match s with
  | c :: s' =>
    match digit c with
    | Some d => digits s' (acc * 10 + d) (S n)
    | None => (acc, n, s)
    end
  | [] => (acc, n, [])
  end.

(** The integer part: a single [0], or a non-zero digit and more digits. *)
Definition int_part (s : jsstring) : option (N * jsstring) :=
  match s with
  | c :: s' =>
    if c =? ch "0" then Some (0, s')
    else match digit c with
         | Some d => let '(m, _, rest) := digits s' d 0%nat in Some (m, rest)
         | None => None
         end
  | [] => None
  end.

(** The fraction: nothing, or a dot and at least one digit.  The digits
    extend the mantissa [m]; their count is returned. *)
Definition frac_part (m : N) (s : jsstring) : option (N * nat * jsstring) :=
  match s with
  | c :: s' =>
    if c =? ch "." then
      match digits s' m 0%nat with
      | (_, O, _) => None
      | r => Some r
      end
    else Some (m, 0%nat, s)
  | [] => Some (m, 0%nat, [])
  end.

(** The exponent: nothing, or [e]/[E], an optional sign and at least one
    digit. *)
Definition exp_part (s : jsstring) : option (Z * jsstring) :=
  match s with
  | c :: s' =>
    if (c =? ch "e") || (c =? ch "E") then
      let '(neg, s'') :=
        match s' with
        | g :: t => if g =? ch "-" then (true, t)
                    else if g =? ch "+" then (false, t) else (false, s')
        | [] => (false, s')
        end in
      match digits s'' 0 0%nat with
      | (_, O, _) => None
      | (e, _, rest) => Some (if neg then (- Z.of_N e)%Z else Z.of_N e, rest)
      end
    else Some (0%Z, s)
  | [] => Some (0%Z, [])
  end.

Definition parse_number (s : jsstring) : option (decimal * jsstring) :=
  let '(neg, s1) :=
    match s with
    | c :: s' => if c =? ch "-" then (true, s') else (false, s)
    | [] => (false, s)
    end in
  match int_part s1 with
  | None => None
  | Some (i, s2) =>
    match frac_part i s2 with
    | None => None
    | Some (m, nfrac, s3) =>
      match exp_part s3 with
      | None => None
      | Some (e, rest) => Some (Decimal neg m (e - Z.of_nat nfrac), rest)
      end
    end
  end.

(** [expect p s] is what follows [p] in [s], when [s] starts with
    [p]. *)
Fixpoint expect (p s : jsstring) : option jsstring :=
  match p, s with
  | [], _ => Some s
  | a :: p', b :: s' => if a =? b then expect p' s' else None
  | _ :: _, [] => None
  end.

(** The outcome of a parser of the recursive descent: a value and the text
    after it, a syntax error, or fuel exhausted ([parse_value_fuel] below
    shows the fuel [JSON_parse] gives is never exhausted). *)
Inductive parsed :=
| Parsed (v : value) (rest : jsstring)
| SyntaxError
| OutOfFuel.

(** [parse_value] reads one value at the head of [s]; [parse_elements]
    reads the elements of an array from the first one to the closing
    bracket; [parse_members] reads the members of an object from the
    first key to the closing brace.  A repeated key overwrites the
    earlier member. *)
Fixpoint parse_value (fuel : nat) (s : jsstring) : parsed :=
  match fuel with
  | O => OutOfFuel
  | S f =>
    match s with
    | [] => SyntaxError
    | c :: s' =>
      if c =? lbrace then
        match skip_ws s' with
        | [] => SyntaxError
        | c' :: s'' =>
          if c' =? rbrace then Parsed (Obj ∅) s''
          else parse_members f (c' :: s'') ∅
        end
      else if c =? lbracket then
        match skip_ws s' with
        | [] => SyntaxError
        | c' :: s'' =>
          if c' =? rbracket then Parsed (Arr []) s''
          else parse_elements f (c' :: s'') []
        end
      else if c =? quote then
        match string_chars s' with
        | Some (str, rest) => Parsed (Str str) rest
        | None => SyntaxError
        end
      else if c =? ch "t" then
        match expect (js "true") s with
        | Some rest => Parsed (Bool true) rest
        | None => SyntaxError
        end
      else if c =? ch "f" then
        match expect (js "false") s with
        | Some rest => Parsed (Bool false) rest
        | None => SyntaxError
        end
      else if c =? ch "n" then
        match expect (js "null") s with
        | Some rest => Parsed Null rest
        | None => SyntaxError
        end
      else
        match parse_number s with
        | Some (d, rest) => Parsed (Num d) rest
        | None => SyntaxError
        end
    end
  end
with parse_elements (fuel : nat) (s : jsstring) (acc : list value) : parsed :=
  match fuel with
  | O => OutOfFuel
  | S f =>
    match parse_value f s with
    | Parsed v rest =>
      match skip_ws rest with
      | [] => SyntaxError
      | c :: s' =>
        if c =? comma then parse_elements f (skip_ws s') (acc ++ [v])
        else if c =? rbracket then Parsed (Arr (acc ++ [v])) s'
        else SyntaxError
      end
    | SyntaxError => SyntaxError
    | OutOfFuel => OutOfFuel
    end
  end
with parse_members (fuel : nat) (s : jsstring) (acc : gmap jsstring value) : parsed :=
  match fuel with
  | O => OutOfFuel
  | S f =>
    match s with
    | [] => SyntaxError
    | c :: s1 =>
      if c =? quote then
        match string_chars s1 with
        | None => SyntaxError
        | Some (k, s2) =>
          match skip_ws s2 with
          | [] => SyntaxError
          | c2 :: s3 =>
            if c2 =? colon then
              match parse_value f (skip_ws s3) with
              | Parsed v rest =>
                match skip_ws rest with
                | [] => SyntaxError
                | c3 :: s4 =>
                  if c3 =? comma then parse_members f (skip_ws s4) (<[k:=v]> acc)
                  else if c3 =? rbrace then Parsed (Obj (<[k:=v]> acc)) s4
                  else SyntaxError
                end
              | SyntaxError => SyntaxError
              | OutOfFuel => OutOfFuel
              end
            else SyntaxError
          end
        end
      else SyntaxError
    end
  end.

(** [JSON.parse(text)]: one value between optional white space and nothing
    else; [None] stands for the [SyntaxError] the built-in throws.  The
    limit an engine puts on the depth of nesting is not modelled. *)
Definition JSON_parse (text : jsstring) : option value :=
  match parse_value (2 * length text + 1) (skip_ws text) with
  | Parsed v rest =>
    match skip_ws rest with
    | [] => Some v
    | _ :: _ => None
    end
  | SyntaxError | OutOfFuel => None
  end.

(** ** Exceptions, completions and the generation call *)

(** What a [throw] carries: an object that is an instance of [Error],
    with its name and message, or any other value. *)
Inductive exn :=
| ErrorObject (name message : jsstring)
| Thrown (v : value).

(** [new Error(message)]. *)
Definition Error (message : jsstring) : exn := ErrorObject (js "Error") message.

(** The [TypeError] of reading property [k] of [null] or [undefined]
    (the message is the engine's; this is V8's for [null]). *)
Definition TypeError_read (k : jsstring) : exn :=
  ErrorObject (js "TypeError")
    (js "Cannot read properties of null (reading '" ++ k ++ js "')").

(** [e instanceof Error]. *)
Definition instanceof_Error (e : exn) : bool :=
  match e with
  | ErrorObject _ _ => true
  | Thrown _ => false
  end.

Inductive completion (A : Type) :=
| Return (a : A)
| Throw (e : exn).
Arguments Return {A} a.
Arguments Throw {A} e.

(** The argument of [generateText]. *)
Record request := Request {
  model : jsstring;
  system : jsstring;
  prompt : jsstring;
  temperature : decimal
}.

(** A computation that may call the text-generation service and may
    throw: it maps the calls made so far to its completion and the calls
    made when it ends. *)
Definition M (A : Type) : Type := list request → completion A * list request.

#[export] Instance M_ret : MRet M := λ A a log, (Return a, log).
#[export] Instance M_bind : MBind M := λ A B k m log,
  match m log with
  | (Return a, log') => k a log'
  | (Throw e, log') => (Throw e, log')
  end.

Definition throw {A} (e : exn) : M A := λ log, (Throw e, log).

(** [try { m } catch (e) { h e }]. *)
Definition try_catch {A} (m : M A) (h : exn → M A) : M A := λ log,
  match m log with
  | (Throw e, log') => h e log'
  | r => r
  end.

(** [await generateText(req)], for a service that answers [req] with
    [generateText req]: the call is recorded. *)
Definition await_call (generateText : request → completion jsstring)
    (req : request) : M jsstring :=
  λ log, (generateText req, log ++ [req]).

(** A completion that involves no call. *)
Definition lift {A} (c : completion A) : M A := λ log, (c, log).

(** The completion of a computation started with no call made, and the
    calls it makes. *)
Definition outcome {A} (m : M A) : completion A := fst (m []).
Definition calls {A} (m : M A) : list request := snd (m []).

(** ** Property access and string conversion *)

(** [v.k] (and the [k] of a destructuring pattern), for a name [k] that no
    built-in prototype defines; the four names the program reads,
    [modifiedCode], [explanation], [code] and [prompt], are such names.
    Primitives and arrays then have no such property. *)
Definition get_field (v : value) (k : jsstring) : completion value :=
  match v with
  | Undefined | Null => Throw (TypeError_read k)
  | Obj m => Return (default Undefined (m !! k))
  | Bool _ | Num _ | Str _ | Arr _ => Return Undefined
  end.

Section ToString.

(** [Number::toString], the engine's shortest round-trip printing of a
    double.  It only feeds the text of the generation request. *)
Variable NumberToString : decimal → jsstring.

Definition TypeError_primitive : exn :=
  ErrorObject (js "TypeError") (js "Cannot convert object to primitive value").

(** [ToString], as a template literal applies it to a substitution.  An
    array is joined with commas, [null] and [undefined] elements giving
    the empty string.  An object parsed from JSON has no callable
    property: with a [toString] of its own nothing converts it, without
    one [Object.prototype.toString] does. *)
Fixpoint ToString (v : value) : completion jsstring :=
  match v with
  | Undefined => Return (js "undefined")
  | Null => Return (js "null")
  | Bool true => Return (js "true")
  | Bool false => Return (js "false")
  | Num d => Return (NumberToString d)
  | Str s => Return s
  | Arr l =>
    (fix join (l : list value) : completion jsstring :=
       match l with
       | [] => Return []
       | x :: l' =>
         let head :=
           match x with
           | Undefined | Null => Return []
           | _ => ToString x
           end in
         match head with
         | Throw e => Throw e
         | Return a =>
           match l' with
           | [] => Return a
           | _ :: _ =>
             match join l' with
             | Throw e => Throw e
             | Return b => Return (a ++ comma :: b)
             end
           end
         end
       end) l
  | Obj m =>
    match m !! js "toString" with
    | Some _ => Throw TypeError_primitive
    | None => Return (js "[object Object]")
    end
  end.

End ToString.

(** ** The text the two entry points share *)

Definition nl : jsstring := [10].

(** The template literal [systemPrompt], the same in both files. *)
Definition systemPrompt : jsstring :=
  js "You are a code improvement assistant. A user provides code and a prompt to improve it."
  ++ nl ++ nl ++
  js "You MUST respond with a valid JSON object containing exactly these two fields:"
  ++ nl ++
  js "1. " ++ jstr "modifiedCode" ++ js ": The improved code as a string"
  ++ nl ++
  js "2. " ++ jstr "explanation" ++ js ": Your explanation of the changes"
  ++ nl ++ nl ++
  js "Example of the expected response format:"
  ++ nl ++ js "{" ++ nl ++
  js "  " ++ jstr "modifiedCode" ++ js ": "
  ++ jstr "function example() { console.log('Hello world'); }" ++ js ","
  ++ nl ++
  js "  " ++ jstr "explanation" ++ js ": "
  ++ jstr "Added a console.log statement to the function."
  ++ nl ++ js "}" ++ nl ++ nl ++
  js "Do not include any text outside of the JSON object. Do not include markdown formatting, code blocks, or any other text.".

(** The template literal [userMessage], its two substitutions already
    converted to strings. *)
Definition userMessage (code prompt : jsstring) : jsstring :=
  js "Code:" ++ nl ++ code ++ nl ++ nl ++ js "Change Request:" ++ nl ++ prompt.

Definition generation_request (code prompt : jsstring) : request :=
  {| model := js "gpt-4o";
     system := systemPrompt;
     prompt := userMessage code prompt;
     temperature := Decimal false 2 (-1) |}.

Definition key_message : jsstring :=
  js "OpenAI API key is not configured. Please contact the administrator.".

Definition diagnostic : jsstring :=
  js "The AI response couldn't be parsed as JSON. Showing raw response instead.".

(** [!process.env.OPENAI_API_KEY]: the variable is unset or empty. *)
Definition key_missing (OPENAI_API_KEY : option jsstring) : bool :=
  match OPENAI_API_KEY with
  | Some (_ :: _) => false
  | Some [] | None => true
  end.

(** ** The regular expression [/\{[\s\S]*\}/] *)

(** After the opening brace: [[\s\S]*] takes as many code units as it can
    and gives them back one at a time until a closing brace follows.
    [greedy_to_rbrace s] is what the two match in [s], if anything. *)
Fixpoint greedy_to_rbrace (s : jsstring) : option jsstring :=
  match s with
  | [] => None
  | c :: s' =>
    match greedy_to_rbrace s' with
    | Some m => Some (c :: m)
    | None => if c =? rbrace then Some [c] else None
    end
  end.

(** [text.match(/\{[\s\S]*\}/)]: the match at the leftmost position where
    there is one, [None] for [null]. *)
Fixpoint match_braces (text : jsstring) : option jsstring :=
  match text with
  | [] => None
  | c :: s' =>
    if c =? lbrace then
      match greedy_to_rbrace s' with
      | Some m => Some (c :: m)
      | None => match_braces s'
      end
    else match_braces s'
  end.

(** A result with the two fields. *)
Definition result (modifiedCode explanation : value) : value :=
  Obj (<[js "modifiedCode" := modifiedCode]> (<[js "explanation" := explanation]> ∅)).

(** ** src/actions.ts *)

Module Actions.

(** The inner [try] either returns the parse of the matched span or
    leaves the block (no match, or a parse error caught and logged);
    the synthetic result follows. *)
Definition safeJsonParse (text : jsstring) : value :=
  match JSON_parse text with
  | Some v => v
  | None =>
    let extracted :=
      match match_braces text with
      | Some jsonMatch => JSON_parse jsonMatch
      | None => None
      end in
    match extracted with
    | Some v => v
    | None => result (Str text) (Str diagnostic)
    end
  end.

Definition placeholder : jsstring := js "// Error: No code was generated".
Definition incomplete_message : jsstring :=
  js "The AI response was incomplete. Please try again.".
Definition generic_message : jsstring :=
  js "Failed to process your request. Please check your inputs and try again.".

Section server_action.

Variable generateText : request → completion jsstring.
Variable OPENAI_API_KEY : option jsstring.

Definition iterateCode (code prompt : jsstring) : M value :=
  try_catch
    (if key_missing OPENAI_API_KEY then throw (Error key_message)
     else
       text ← await_call generateText (generation_request code prompt);
       let parsed := safeJsonParse text in
       modifiedCode ← lift (get_field parsed (js "modifiedCode"));
       incomplete ←
         (if truthy modifiedCode
          then explanation ← lift (get_field parsed (js "explanation"));
               mret (negb (truthy explanation))
          else mret true);
       modifiedCode ← lift (get_field parsed (js "modifiedCode"));
       explanation ← lift (get_field parsed (js "explanation"));
       if (incomplete : bool)
       then mret (result (or_else (or_else modifiedCode (Str text)) (Str placeholder))
                         (or_else explanation (Str incomplete_message)))
       else mret (result modifiedCode explanation))
    (λ error,
       if instanceof_Error error then throw error
       else throw (Error generic_message)).

End server_action.

End Actions.

(** ** The route handler *)

Module Route.

Definition safeJsonParse (text : jsstring) : value :=
  match JSON_parse text with
  | Some v => v
  | None =>
    let extracted :=
      match match_braces text with
      | Some jsonMatch => JSON_parse jsonMatch
      | None => None
      end in
    match extracted with
    | Some v => v
    | None => result (Str text) (Str diagnostic)
    end
  end.

(** [NextResponse.json(body, { status })]; the status is 200 when none
    is given. *)
Record response := Response { status : nat; body : value }.

Definition error_body (message : jsstring) : value :=
  Obj (<[js "error" := Str message]> ∅).

Definition required_message : jsstring := js "Code and prompt are required".
Definition unexpected_message : jsstring := js "An unexpected error occurred".

(** The [SyntaxError] of [req.json()] on a body that is not JSON. *)
Definition body_error : exn :=
  ErrorObject (js "SyntaxError") (js "Unexpected end of JSON input").

Section handler.

Variable NumberToString : decimal → jsstring.
Variable generateText : request → completion jsstring.
Variable OPENAI_API_KEY : option jsstring.

(** [req_body] is the text of the request's body. *)
Definition POST (req_body : jsstring) : M response :=
  try_catch
    (json ← lift (match JSON_parse req_body with
                  | Some v => Return v
                  | None => Throw body_error
                  end);
     code ← lift (get_field json (js "code"));
     prompt ← lift (get_field json (js "prompt"));
     if negb (truthy code) || negb (truthy prompt)
     then mret (Response 400 (error_body required_message))
     else if key_missing OPENAI_API_KEY
     then mret (Response 500 (error_body key_message))
     else
       code_text ← lift (ToString NumberToString code);
       prompt_text ← lift (ToString NumberToString prompt);
       text ← await_call generateText (generation_request code_text prompt_text);
       let parsed := safeJsonParse text in
       mret (Response 200 parsed))
    (λ error, mret (Response 500 (error_body unexpected_message))).

End handler.

End Route.

(** ** Vocabulary of the properties *)

(** [contains c s]: the code unit [c] occurs in [s]. *)
Definition contains (c : N) (s : jsstring) : bool := existsb (N.eqb c) s.


(** Both fields are present and not falsy. *)
Definition populated (v : value) : bool :=
  match get_field v (js "modifiedCode"), get_field v (js "explanation") with
  | Return a, Return b => truthy a && truthy b
  | _, _ => false
  end.

(** The IterationRequest a request body carries, if it does: an object
    with two non-empty strings [code] and [prompt]. *)
Definition IterationRequest_of (req_body : jsstring) : option (jsstring * jsstring) :=
  match JSON_parse req_body with
  | Some json =>
    match get_field json (js "code"), get_field json (js "prompt") with
    | Return (Str (c :: code)), Return (Str (p :: prompt)) =>
      Some (c :: code, p :: prompt)
    | _, _ => None
    end
  | None => None
  end.

(** ** Sample data

    In the comments below, ['] stands for the double quote. *)

Module Sample.

Definition key : option jsstring := Some (js "sk-test").

(** A service that answers every request with [text]. *)
Definition answering (text : jsstring) : request → completion jsstring :=
  λ _, Return text.

(** No sample holds a number: how numbers print plays no part. *)
Definition NumberToString : decimal → jsstring := λ _, js "NaN".

Definition code : jsstring := js "function f(){}".
Definition prompt : jsstring := js "add logging".

(** The request body [{'code':'function f(){}','prompt':'add logging'}]. *)
Definition req_body : jsstring :=
  js "{" ++ jstr "code" ++ js ":" ++ jstr "function f(){}" ++ js ","
  ++ jstr "prompt" ++ js ":" ++ jstr "add logging" ++ js "}".

(** [{'modifiedCode':'function f(){console.log(1)}','explanation':'added log'}] *)
Definition exact_reply : jsstring :=
  js "{" ++ jstr "modifiedCode" ++ js ":" ++ jstr "function f(){console.log(1)}"
  ++ js "," ++ jstr "explanation" ++ js ":" ++ jstr "added log" ++ js "}".

(** The inside of [{'modifiedCode':'x=1','explanation':'set x'}]. *)
Definition inner : jsstring :=
  jstr "modifiedCode" ++ js ":" ++ jstr "x=1" ++ js ","
  ++ jstr "explanation" ++ js ":" ++ jstr "set x".

(** [Sure! {'modifiedCode':'x=1','explanation':'set x'} Hope this helps!] *)
Definition wrapped_reply : jsstring :=
  js "Sure! " ++ lbrace :: inner ++ rbrace :: js " Hope this helps!".

(** [{'modifiedCode':'x=1','explanation':'set x'} That is all :}] *)
Definition stray_reply : jsstring :=
  (lbrace :: inner ++ [rbrace]) ++ js " That is all :}".

(** The inside of [{'modifiedCode':'','explanation':'set x'}]: the
    code is the empty string. *)
Definition inner_empty : jsstring :=
  jstr "modifiedCode" ++ js ":" ++ [quote; quote] ++ js ","
  ++ jstr "explanation" ++ js ":" ++ jstr "set x".

Definition wrapped_empty_reply : jsstring :=
  js "Sure! " ++ lbrace :: inner_empty ++ rbrace :: js " Hope this helps!".

Definition prose_reply : jsstring := js "I could not find anything to change.".

End Sample.

(** ** The page component *)

(** White space for [String.prototype.trim]: the WhiteSpace and
    LineTerminator code units. *)
Definition is_js_ws (c : N) : bool :=
  (c =? 9) || (c =? 10) || (c =? 11) || (c =? 12) || (c =? 13) || (c =? 32)
  || (c =? 160) || (c =? 5760) || ((8192 <=? c) && (c <=? 8202))
  || (c =? 8232) || (c =? 8233) || (c =? 8239) || (c =? 8287)
  || (c =? 12288) || (c =? 65279).

Fixpoint trimStart (s : jsstring) : jsstring :=
  match s with
  | c :: s' => if is_js_ws c then trimStart s' else s
  | [] => []
  end.

Definition trimEnd (s : jsstring) : jsstring := rev (trimStart (rev s)).

Definition trim (s : jsstring) : jsstring := trimEnd (trimStart s).

Module CodeIterator.

(** The argument of [toast]. *)
Record toast := Toast {
  title : jsstring;
  description : jsstring;
  variant : option jsstring
}.

(** The state of the component: one field per [useState].  [response] is
    [Null] while there is none, [error] is [None] for [null]. *)
Record state := State {
  code : jsstring;
  prompt : jsstring;
  response : value;
  finalCode : value;
  isLoading : bool;
  error : option jsstring
}.

Definition initial : state :=
  {| code := []; prompt := []; response := Null; finalCode := Str [];
     isLoading := false; error := None |}.

Definition setResponse (r : value) (s : state) : state :=
  {| code := code s; prompt := prompt s; response := r;
     finalCode := finalCode s; isLoading := isLoading s; error := error s |}.

Definition setFinalCode (v : value) (s : state) : state :=
  {| code := code s; prompt := prompt s; response := response s;
     finalCode := v; isLoading := isLoading s; error := error s |}.

Definition setIsLoading (b : bool) (s : state) : state :=
  {| code := code s; prompt := prompt s; response := response s;
     finalCode := finalCode s; isLoading := b; error := error s |}.

Definition setError (e : option jsstring) (s : state) : state :=
  {| code := code s; prompt := prompt s; response := response s;
     finalCode := finalCode s; isLoading := isLoading s; error := e |}.

(** The two updates a submit and a retry start with. *)
Definition pending (s : state) : state := setError None (setIsLoading true s).

Definition destructive : option jsstring := Some (js "destructive").

Definition missing_code_toast : toast :=
  Toast (js "Missing code") (js "Please paste your code before submitting")
        destructive.

Definition missing_prompt_toast : toast :=
  Toast (js "Missing prompt") (js "Please describe the changes you want to make")
        destructive.

Definition incomplete_toast : toast :=
  Toast (js "Incomplete response")
        (js "The AI returned an incomplete response. Some information may be missing.")
        (Some (js "warning")).

Definition error_toast (errorMessage : jsstring) : toast :=
  Toast (js "Error") errorMessage destructive.

Definition retrying_toast : toast :=
  Toast (js "Retrying") (js "Sending your request again with different parameters")
        None.

Definition integrated_toast : toast :=
  Toast (js "Code integrated")
        (js "The suggested code has been integrated into your final output")
        None.

Definition unexpected_message : jsstring := js "An unexpected error occurred".

(** [err instanceof Error ? err.message : ...]. *)
Definition errorMessage (err : exn) : jsstring :=
  match err with
  | ErrorObject _ message => message
  | Thrown _ => unexpected_message
  end.

(** What [handleRetry] appends to the prompt. *)
Definition hint : jsstring :=
  nl ++ nl ++
  js "IMPORTANT: Please ensure your response is in valid JSON format with 'modifiedCode' and 'explanation' fields.".

Section handlers.

(** The service and the key of the server that runs [iterateCode].  The
    call of the server action is modelled as the direct call the code
    is written as. *)
Variable generateText : request → completion jsstring.
Variable OPENAI_API_KEY : option jsstring.

(** A handler maps the state its closure holds to the state after its
    last update, with the toasts it shows, in order. *)
Definition handleSubmit (s : state) : M (state * list toast) :=
  if negb (truthy (Str (trim (code s)))) then mret (s, [missing_code_toast])
  else if negb (truthy (Str (trim (prompt s)))) then mret (s, [missing_prompt_toast])
  else
    let s1 := setError None (setIsLoading true s) in
    '(s2, toasts) ←
      try_catch
        (result ← Actions.iterateCode generateText OPENAI_API_KEY (code s) (prompt s);
         modifiedCode ← lift (get_field result (js "modifiedCode"));
         incomplete ←
           (if truthy modifiedCode
            then explanation ← lift (get_field result (js "explanation"));
                 mret (negb (truthy explanation))
            else mret true);
         mret (setError None (setResponse result s1),
               if (incomplete : bool) then [incomplete_toast] else []))
        (λ err,
           mret (setResponse Null (setError (Some (errorMessage err)) s1),
                 [error_toast (errorMessage err)]));
    mret (setIsLoading false s2, toasts).

Definition handleRetry (s : state) : M (state * list toast) :=
  if negb (truthy (Str (code s))) || negb (truthy (Str (prompt s))) then mret (s, [])
  else
    let s1 := setError None (setIsLoading true s) in
    s2 ←
      try_catch
        (let enhancedPrompt := prompt s ++ hint in
         result ← Actions.iterateCode generateText OPENAI_API_KEY (code s) enhancedPrompt;
         mret (setError None (setResponse result s1)))
        (λ err, mret (setResponse Null (setError (Some (errorMessage err)) s1)));
    mret (setIsLoading false s2, [retrying_toast]).

End handlers.

(** [handleIntegrate] calls no service. *)
Definition handleIntegrate (s : state) : completion (state * list toast) :=
  if truthy (response s) then
    match get_field (response s) (js "modifiedCode") with
    | Return modifiedCode => Return (setFinalCode modifiedCode s, [integrated_toast])
    | Throw e => Throw e
    end
  else Return (s, []).

(** The conditions [error &&], [response &&] and [finalCode &&] that
    stand in front of the error card, the response card and the
    final-output card.  They are the guards only: what the cards hold,
    and whether React can render it, is not modelled. *)
Definition error_guard (s : state) : bool :=
  match error s with
  | Some message => truthy (Str message)
  | None => false
  end.
Definition response_guard (s : state) : bool := truthy (response s).
Definition final_guard (s : state) : bool := truthy (finalCode s).

End CodeIterator.

(** The text is the literal [null] between optional white space. *)
Definition is_null_literal (text : jsstring) : bool :=
  match expect (js "null") (skip_ws text) with
  | Some rest => match skip_ws rest with [] => true | _ :: _ => false end
  | None => false
  end.

(** ** More sample data *)

Module Demo.

(** The request body [{'code':'','prompt':'add logging'}]: the code is the
    empty string. *)
Definition empty_code_body : jsstring :=
  js "{" ++ jstr "code" ++ js ":" ++ [quote; quote] ++ js ","
  ++ jstr "prompt" ++ js ":" ++ jstr "add logging" ++ js "}".

(** A service that is down. *)
Definition failing : request → completion jsstring :=
  λ _, Throw (Error (js "rate limit exceeded")).

(** The component after the user typed [Sample.code] and
    [Sample.prompt]. *)
Definition typed : CodeIterator.state :=
  {| CodeIterator.code := Sample.code;
     CodeIterator.prompt := Sample.prompt;
     CodeIterator.response := Null;
     CodeIterator.finalCode := Str [];
     CodeIterator.isLoading := false;
     CodeIterator.error := None |}.

(** The component with two spaces for code and a prompt. *)
Definition blank_code : CodeIterator.state :=
  {| CodeIterator.code := js "  ";
     CodeIterator.prompt := Sample.prompt;
     CodeIterator.response := Null;
     CodeIterator.finalCode := Str [];
     CodeIterator.isLoading := false;
     CodeIterator.error := None |}.

(** [typed] after a submit that was answered with
    [Sample.exact_reply]. *)
Definition answered : CodeIterator.state :=
  {| CodeIterator.code := Sample.code;
     CodeIterator.prompt := Sample.prompt;
     CodeIterator.response :=
       result (Str (js "function f(){console.log(1)}")) (Str (js "added log"));
     CodeIterator.finalCode := Str [];
     CodeIterator.isLoading := false;
     CodeIterator.error := None |}.

(** [typed] after a submit while the service is down. *)
Definition failed : CodeIterator.state :=
  {| CodeIterator.code := Sample.code;
     CodeIterator.prompt := Sample.prompt;
     CodeIterator.response := Null;
     CodeIterator.finalCode := Str [];
     CodeIterator.isLoading := false;
     CodeIterator.error := Some (js "rate limit exceeded") |}.

End Demo.

(** * Properties *)

(** ** The parser consumes its input and never runs out of fuel *)










(** ** [JSON.parse] never yields [undefined] *)

Lemma parse_defined fuel :
  (∀ s v r, parse_value fuel s = Parsed v r → v ≠ Undefined) ∧
  (∀ s acc v r, parse_elements fuel s acc = Parsed v r → v ≠ Undefined) ∧
  (∀ s acc v r, parse_members fuel s acc = Parsed v r → v ≠ Undefined).
Proof.
  induction fuel as [|f (IHv & IHe & IHm)]; [by repeat split|].
  repeat split.
  - intros s v r H. cbn [parse_value] in H.
    repeat match type of H with
    | (if ?b then _ else _) = _ => destruct b
    | match ?x with _ => _ end = _ => destruct x
    end; try discriminate; try (by simplify_eq); eauto.
  - intros s acc v r H. cbn [parse_elements] in H.
    destruct (parse_value f s) as [v' rest| |]; try discriminate.
    destruct (skip_ws rest) as [|c s']; [discriminate|].
    destruct (c =? comma); [eauto|].
    destruct (c =? rbracket); by simplify_eq.
  - intros s acc v r H. cbn [parse_members] in H.
    destruct s as [|c s1]; [discriminate|].
    destruct (c =? quote); [|discriminate].
    destruct (string_chars s1) as [[k s2]|]; [|discriminate].
    destruct (skip_ws s2) as [|c2 s3]; [discriminate|].
    destruct (c2 =? colon); [|discriminate].
    destruct (parse_value f (skip_ws s3)) as [v' rest| |]; try discriminate.
    destruct (skip_ws rest) as [|c3 s4]; [discriminate|].
    destruct (c3 =? comma); [eauto|].
    destruct (c3 =? rbrace); by simplify_eq.
Qed.

Lemma JSON_parse_defined text v : JSON_parse text = Some v → v ≠ Undefined.
Proof.
  unfold JSON_parse. intros H.
  destruct (parse_value _ _) as [v' rest| |] eqn:E; try discriminate.
  destruct (skip_ws rest); simplify_eq.
  by apply (proj1 (parse_defined _)) in E.
Qed.

Lemma safeJsonParse_defined text : Actions.safeJsonParse text ≠ Undefined.
Proof.
  unfold Actions.safeJsonParse.
  destruct (JSON_parse text) eqn:E; [by apply JSON_parse_defined in E|].
  destruct (match_braces text) as [m|]; [|done].
  destruct (JSON_parse m) eqn:E'; [by apply JSON_parse_defined in E'|done].
Qed.

Lemma Route_safeJsonParse_eq text : Route.safeJsonParse text = Actions.safeJsonParse text.
Proof. reflexivity. Qed.

Lemma get_field_returns v k :
  v ≠ Undefined → v ≠ Null → ∃ f, get_field v k = Return f.
Proof. destruct v; simpl; intros; try done; eauto. Qed.

Section runs.
Variable NumberToString : decimal → jsstring.
Variable generateText : request → completion jsstring.
Variable OPENAI_API_KEY : option jsstring.

Lemma iterateCode_run code prompt text fm fe :
  key_missing OPENAI_API_KEY = false →
  generateText (generation_request code prompt) = Return text →
  get_field (Actions.safeJsonParse text) (js "modifiedCode") = Return fm →
  get_field (Actions.safeJsonParse text) (js "explanation") = Return fe →
  Actions.iterateCode generateText OPENAI_API_KEY code prompt [] =
    (Return (if truthy fm && truthy fe then result fm fe
             else result (or_else (or_else fm (Str text)) (Str Actions.placeholder))
                         (or_else fe (Str Actions.incomplete_message))),
     [generation_request code prompt]).
Proof.
  intros Hk Hg Hm He.
  unfold Actions.iterateCode, try_catch, mbind, M_bind, await_call, lift, mret, M_ret.
  rewrite Hk, Hg, Hm, He. simpl.
  destruct (truthy fm); simpl; [|done].
  by destruct (truthy fe).
Qed.

Lemma iterateCode_null code prompt text :
  key_missing OPENAI_API_KEY = false →
  generateText (generation_request code prompt) = Return text →
  Actions.safeJsonParse text = Null →
  Actions.iterateCode generateText OPENAI_API_KEY code prompt [] =
    (Throw (TypeError_read (js "modifiedCode")), [generation_request code prompt]).
Proof.
  intros Hk Hg Hn.
  unfold Actions.iterateCode, try_catch, mbind, M_bind, await_call, lift, mret, M_ret.
  by rewrite Hk, Hg, Hn.
Qed.

Lemma iterateCode_no_key code prompt :
  key_missing OPENAI_API_KEY = true →
  Actions.iterateCode generateText OPENAI_API_KEY code prompt [] =
    (Throw (Error key_message), []).
Proof.
  intros Hk. unfold Actions.iterateCode, try_catch. by rewrite Hk.
Qed.

End runs.

(** ** The regular expression matches from the first opening brace to the last closing brace *)

Lemma contains_app c s t : contains c (s ++ t) = contains c s || contains c t.
Proof. apply existsb_app. Qed.

Lemma greedy_none s : contains rbrace s = false → greedy_to_rbrace s = None.
Proof.
  induction s as [|c s IH]; [done|]. cbn [contains existsb greedy_to_rbrace].
  intros [Hc Hs]%orb_false_iff. rewrite (IH Hs).
  rewrite N.eqb_sym in Hc. by rewrite Hc.
Qed.

Lemma greedy_last mid post :
  contains rbrace post = false →
  greedy_to_rbrace (mid ++ rbrace :: post) = Some (mid ++ [rbrace]).
Proof.
  intros Hp. induction mid as [|c mid IH]; cbn [app greedy_to_rbrace].
  - by rewrite (greedy_none _ Hp), N.eqb_refl.
  - by rewrite IH.
Qed.

Lemma greedy_inv s : ∀ m, greedy_to_rbrace s = Some m →
  ∃ mid post, s = mid ++ rbrace :: post ∧ contains rbrace post = false
              ∧ m = mid ++ [rbrace].
Proof.
  induction s as [|c s IH]; [done|]. cbn [greedy_to_rbrace]. intros m H.
  destruct (greedy_to_rbrace s) as [m'|] eqn:E.
  - destruct (IH m' eq_refl) as (mid & post & -> & Hp & ->). simplify_eq.
    by exists (c :: mid), post.
  - destruct (c =? rbrace) eqn:Ec; [|done]. simplify_eq.
    apply N.eqb_eq in Ec as ->. exists [], s. repeat split.
    destruct (contains rbrace s) eqn:Hc; [|done].
    exfalso. clear IH. induction s as [|d s IHs]; [done|].
    cbn [greedy_to_rbrace] in E. destruct (greedy_to_rbrace s); [done|].
    cbn [contains existsb] in Hc.
    destruct (d =? rbrace) eqn:Ed; [done|]. rewrite N.eqb_sym, Ed in Hc. auto.
Qed.

Lemma match_braces_none text :
  contains lbrace text = false ∨ contains rbrace text = false →
  match_braces text = None.
Proof.
  induction text as [|c s IH]; [done|]. cbn [contains existsb match_braces].
  intros [H|H]; apply orb_false_iff in H as [Hc Hs].
  - rewrite N.eqb_sym in Hc. rewrite Hc. auto.
  - destruct (c =? lbrace); [|by auto]. rewrite (greedy_none _ Hs). auto.
Qed.

Lemma match_braces_span pre mid post :
  contains lbrace pre = false → contains rbrace post = false →
  match_braces (pre ++ lbrace :: mid ++ rbrace :: post) = Some (lbrace :: mid ++ [rbrace]).
Proof.
  intros Hpre Hpost. induction pre as [|c pre IH]; cbn [app match_braces].
  - by rewrite N.eqb_refl, (greedy_last _ _ Hpost).
  - cbn [contains existsb] in Hpre. apply orb_false_iff in Hpre as [Hc Hpre].
    rewrite N.eqb_sym in Hc. rewrite Hc. auto.
Qed.

Lemma match_braces_inv text : ∀ m, match_braces text = Some m →
  ∃ pre mid post, text = pre ++ lbrace :: mid ++ rbrace :: post
    ∧ contains lbrace pre = false ∧ contains rbrace post = false
    ∧ m = lbrace :: mid ++ [rbrace].
Proof.
  induction text as [|c s IH]; [done|]. cbn [match_braces]. intros m H.
  destruct (c =? lbrace) eqn:Ec.
  - apply N.eqb_eq in Ec as ->.
    destruct (greedy_to_rbrace s) as [m'|] eqn:E.
    + simplify_eq. apply greedy_inv in E as (mid & post & -> & Hp & ->).
      by exists [], mid, post.
    + destruct (IH m H) as (pre & mid & post & -> & _ & Hp & _).
      pose proof (greedy_last (pre ++ lbrace :: mid) post Hp) as G.
      rewrite <- app_assoc in G. cbn [app] in G. congruence.
  - destruct (IH m H) as (pre & mid & post & -> & Hpre & Hp & ->).
    exists (c :: pre), mid, post. repeat split; [|done].
    cbn [contains existsb]. rewrite N.eqb_sym, Ec. done.
Qed.

(** ** Runs of the route handler and cases of the normalizer *)

Section route_runs.
Variable NumberToString : decimal → jsstring.
Variable generateText : request → completion jsstring.
Variable OPENAI_API_KEY : option jsstring.

Lemma IterationRequest_of_inv req_body code prompt :
  IterationRequest_of req_body = Some (code, prompt) →
  ∃ json, JSON_parse req_body = Some json
    ∧ get_field json (js "code") = Return (Str code)
    ∧ get_field json (js "prompt") = Return (Str prompt)
    ∧ truthy (Str code) = true ∧ truthy (Str prompt) = true.
Proof.
  unfold IterationRequest_of. intros H.
  destruct (JSON_parse req_body) as [json|]; [|done]. exists json.
  destruct (get_field json (js "code")) as [[| | | |[|c s]| |]|]; try done.
  destruct (get_field json (js "prompt")) as [[| | | |[|p t]| |]|]; try done.
  by simplify_eq.
Qed.

Lemma POST_run req_body code prompt text :
  IterationRequest_of req_body = Some (code, prompt) →
  key_missing OPENAI_API_KEY = false →
  generateText (generation_request code prompt) = Return text →
  Route.POST NumberToString generateText OPENAI_API_KEY req_body [] =
    (Return (Route.Response 200 (Route.safeJsonParse text)),
     [generation_request code prompt]).
Proof.
  intros (json & Hj & Hc & Hp & Tc & Tp)%IterationRequest_of_inv Hk Hg.
  unfold Route.POST, try_catch, mbind, M_bind, await_call, lift, mret, M_ret.
  rewrite Hj, Hc, Hp, Tc, Tp, Hk. cbn [negb orb ToString]. by rewrite Hg.
Qed.

Lemma POST_no_key req_body code prompt :
  IterationRequest_of req_body = Some (code, prompt) →
  key_missing OPENAI_API_KEY = true →
  Route.POST NumberToString generateText OPENAI_API_KEY req_body [] =
    (Return (Route.Response 500 (Route.error_body key_message)), []).
Proof.
  intros (json & Hj & Hc & Hp & Tc & Tp)%IterationRequest_of_inv Hk.
  unfold Route.POST, try_catch, mbind, M_bind, lift, mret, M_ret.
  by rewrite Hj, Hc, Hp, Tc, Tp, Hk.
Qed.


(** The route rejects a body whose [code] or [prompt] is falsy, empty
    strings among them, with status 400 and no generation call. *)
Lemma POST_rejects_empty req_body json code prompt :
  JSON_parse req_body = Some json →
  get_field json (js "code") = Return code →
  get_field json (js "prompt") = Return prompt →
  truthy code = false ∨ truthy prompt = false →
  Route.POST NumberToString generateText OPENAI_API_KEY req_body [] =
    (Return (Route.Response 400 (Route.error_body Route.required_message)), []).
Proof.
  intros Hj Hc Hp Hf.
  unfold Route.POST, try_catch, mbind, M_bind, lift, mret, M_ret.
  rewrite Hj, Hc, Hp.
  by destruct Hf as [-> | ->]; [|rewrite orb_true_r].
Qed.

(** A failure of the generation call: [iterateCode] rethrows an [Error]
    and wraps anything else into the generic message; the route answers
    500 with its own generic message. *)
Lemma iterateCode_generation_fails code prompt e :
  key_missing OPENAI_API_KEY = false →
  generateText (generation_request code prompt) = Throw e →
  Actions.iterateCode generateText OPENAI_API_KEY code prompt [] =
    (Throw (if instanceof_Error e then e else Error Actions.generic_message),
     [generation_request code prompt]).
Proof.
  intros Hk Hg.
  unfold Actions.iterateCode, try_catch, mbind, M_bind, await_call, throw.
  rewrite Hk, Hg. by destruct (instanceof_Error e).
Qed.

Lemma POST_generation_fails req_body code prompt e :
  IterationRequest_of req_body = Some (code, prompt) →
  key_missing OPENAI_API_KEY = false →
  generateText (generation_request code prompt) = Throw e →
  Route.POST NumberToString generateText OPENAI_API_KEY req_body [] =
    (Return (Route.Response 500 (Route.error_body Route.unexpected_message)),
     [generation_request code prompt]).
Proof.
  intros (json & Hj & Hc & Hp & Tc & Tp)%IterationRequest_of_inv Hk Hg.
  unfold Route.POST, try_catch, mbind, M_bind, await_call, lift, mret, M_ret.
  rewrite Hj, Hc, Hp, Tc, Tp, Hk. cbn [negb orb ToString]. by rewrite Hg.
Qed.

End route_runs.

Lemma safeJsonParse_direct text v :
  JSON_parse text = Some v → Actions.safeJsonParse text = v.
Proof. unfold Actions.safeJsonParse. by intros ->. Qed.

Lemma safeJsonParse_span text span :
  JSON_parse text = None → match_braces text = Some span →
  Actions.safeJsonParse text =
    match JSON_parse span with
    | Some v => v
    | None => result (Str text) (Str diagnostic)
    end.
Proof. unfold Actions.safeJsonParse. by intros -> ->. Qed.

Lemma safeJsonParse_synthetic text :
  JSON_parse text = None →
  (∀ span, match_braces text = Some span → JSON_parse span = None) →
  Actions.safeJsonParse text = result (Str text) (Str diagnostic).
Proof.
  unfold Actions.safeJsonParse. intros -> H.
  destruct (match_braces text) as [span|]; [|done]. by rewrite (H span).
Qed.

Lemma get_field_obj fields k :
  get_field (Obj fields) k = Return (default Undefined (fields !! k)).
Proof. done. Qed.

Lemma result_modifiedCode a b : get_field (result a b) (js "modifiedCode") = Return a.
Proof. unfold result. rewrite get_field_obj. by rewrite lookup_insert_eq. Qed.

Lemma result_explanation a b : get_field (result a b) (js "explanation") = Return b.
Proof.
  unfold result. rewrite get_field_obj.
  rewrite lookup_insert_ne; [|by vm_compute]. by rewrite lookup_insert_eq.
Qed.

(** ** The claims of the specification *)

(** C1, as stated, fails on the route: with the reply [{}] the handler
    answers 200 with the parsed object itself, which has neither
    [modifiedCode] nor [explanation].  The handler's own comment says
    that it returns the parsed result even if some fields might be
    missing. *)
Lemma route_payload_not_populated :
  IterationRequest_of Sample.req_body = Some (Sample.code, Sample.prompt)
  ∧ Route.safeJsonParse (js "{}") = Obj ∅
  ∧ outcome (Route.POST Sample.NumberToString (Sample.answering (js "{}"))
               Sample.key Sample.req_body)
    = Return (Route.Response 200 (Obj ∅))
  ∧ populated (Obj ∅) = false.
Proof. repeat split; vm_compute; reflexivity. Qed.

(** C1, amended.  Whenever the generation call returns a text whose
    normalized value is not [null], the value [iterateCode] returns has
    both [modifiedCode] and [explanation], neither of them falsy: a field
    of the parsed value that is not falsy is kept, a missing or falsy
    [modifiedCode] becomes the raw text, or the placeholder comment when
    the raw text is empty, and a missing or falsy [explanation] becomes
    the incomplete-response message.  The route handler substitutes
    nothing: its payload is the normalized value as it is. *)
Theorem iterateCode_result_populated
    (NumberToString : decimal → jsstring)
    (generateText : request → completion jsstring)
    (OPENAI_API_KEY : option jsstring)
    (code prompt req_body text : jsstring) :
  key_missing OPENAI_API_KEY = false →
  generateText (generation_request code prompt) = Return text →
  Actions.safeJsonParse text ≠ Null →
  IterationRequest_of req_body = Some (code, prompt) →
  (∃ fm fe mc ex,
     get_field (Actions.safeJsonParse text) (js "modifiedCode") = Return fm
     ∧ get_field (Actions.safeJsonParse text) (js "explanation") = Return fe
     ∧ outcome (Actions.iterateCode generateText OPENAI_API_KEY code prompt)
       = Return (result mc ex)
     ∧ populated (result mc ex) = true
     ∧ mc = (if truthy fm then fm
             else match text with
                  | [] => Str Actions.placeholder
                  | _ :: _ => Str text
                  end)
     ∧ ex = (if truthy fe then fe else Str Actions.incomplete_message))
  ∧ outcome (Route.POST NumberToString generateText OPENAI_API_KEY req_body)
    = Return (Route.Response 200 (Route.safeJsonParse text)).
Proof.
  intros Hk Hg Hn Hr. split.
  - destruct (get_field_returns (Actions.safeJsonParse text) (js "modifiedCode"))
      as [fm Hm]; [apply safeJsonParse_defined | done |].
    destruct (get_field_returns (Actions.safeJsonParse text) (js "explanation"))
      as [fe He]; [apply safeJsonParse_defined | done |].
    exists fm, fe,
      (if truthy fm then fm
       else match text with [] => Str Actions.placeholder | _ :: _ => Str text end),
      (if truthy fe then fe else Str Actions.incomplete_message).
    split; [done|]. split; [done|].
    unfold outcome. rewrite (iterateCode_run _ _ code prompt text fm fe Hk Hg Hm He).
    unfold populated. rewrite result_modifiedCode, result_explanation.
    unfold or_else. cbn [fst].
    destruct (truthy fm) eqn:Tm, (truthy fe) eqn:Te, text as [|c t];
      cbn [andb truthy]; rewrite ?Tm, ?Te; done.
  - unfold outcome.
    by rewrite (POST_run NumberToString _ _ _ _ _ _ Hr Hk Hg).
Qed.

Lemma iterateCode_result_populated_witness :
  outcome (Actions.iterateCode (Sample.answering (js "{}")) Sample.key
             Sample.code Sample.prompt)
  = Return (result (Str (js "{}")) (Str Actions.incomplete_message))
  ∧ populated (result (Str (js "{}")) (Str Actions.incomplete_message)) = true
  ∧ outcome (Route.POST Sample.NumberToString (Sample.answering (js "{}"))
               Sample.key Sample.req_body)
    = Return (Route.Response 200 (Obj ∅)).
Proof.
  destruct (iterateCode_result_populated Sample.NumberToString
              (Sample.answering (js "{}")) Sample.key
              Sample.code Sample.prompt Sample.req_body (js "{}"))
    as [(fm & fe & mc & ex & Hm & He & Ho & Hp & -> & ->) Hr].
  - reflexivity.
  - reflexivity.
  - vm_compute. discriminate.
  - vm_compute. reflexivity.
  - vm_compute in Hm, He. simplify_eq.
    split; [exact Ho|]. split; [exact Hp | exact Hr].
Defined.

(** C2 does not hold of [iterateCode], which does not look at its inputs
    before calling the service: with a key configured, an empty [code]
    (or an empty [prompt]) still leads to exactly one generation call,
    made with the message built from the empty string.  The route
    handler, by contrast, rejects such a request with status 400 and no
    call ([POST_rejects_empty]). *)
Theorem iterateCode_empty_input_calls_generation
    (generateText : request → completion jsstring)
    (OPENAI_API_KEY : option jsstring) (prompt : jsstring) :
  key_missing OPENAI_API_KEY = false →
  calls (Actions.iterateCode generateText OPENAI_API_KEY [] prompt)
  = [generation_request [] prompt]
  ∧ calls (Actions.iterateCode generateText OPENAI_API_KEY prompt [])
    = [generation_request prompt []].
Proof.
  intros Hk.
  assert (∀ c p, calls (Actions.iterateCode generateText OPENAI_API_KEY c p)
                 = [generation_request c p]) as H; [|by rewrite !H].
  intros c p. unfold calls.
  destruct (generateText (generation_request c p)) as [text|e] eqn:Hg.
  - assert (Actions.safeJsonParse text = Null ∨ Actions.safeJsonParse text ≠ Null)
      as [Hn|Hn] by (destruct (Actions.safeJsonParse text); auto).
    + by rewrite (iterateCode_null _ _ c p text Hk Hg Hn).
    + destruct (get_field_returns (Actions.safeJsonParse text) (js "modifiedCode"))
        as [fm Hm]; [apply safeJsonParse_defined | done |].
      destruct (get_field_returns (Actions.safeJsonParse text) (js "explanation"))
        as [fe He]; [apply safeJsonParse_defined | done |].
      by rewrite (iterateCode_run _ _ c p text fm fe Hk Hg Hm He).
  - by rewrite (iterateCode_generation_fails _ _ c p e Hk Hg).
Qed.

Lemma iterateCode_empty_input_calls_generation_witness :
  key_missing Sample.key = false
  ∧ calls (Actions.iterateCode (Sample.answering (js "{}")) Sample.key [] [])
    = [generation_request [] []].
Proof.
  split; [reflexivity|].
  apply (iterateCode_empty_input_calls_generation
           (Sample.answering (js "{}")) Sample.key []).
  reflexivity.
Defined.



(** C4, as stated, fails: the text [123] parses to a number, and the
    normalizer returns that number. *)
Lemma direct_parse_number_used :
  JSON_parse (js "123") = Some (Num (Decimal false 123 0))
  ∧ Actions.safeJsonParse (js "123") = Num (Decimal false 123 0).
Proof. split; vm_compute; reflexivity. Qed.

(** C4, amended.  Step 1 uses the direct parse of the whole text whenever
    that parse succeeds, whatever the type of the parsed value: no test
    that it is an object is made. *)
Theorem direct_parse_used (text : jsstring) (v : value) :
  JSON_parse text = Some v →
  Actions.safeJsonParse text = v ∧ Route.safeJsonParse text = v.
Proof. intros H. split; by apply safeJsonParse_direct. Qed.

Lemma direct_parse_used_witness :
  JSON_parse (js "false") = Some (Bool false)
  ∧ Actions.safeJsonParse (js "false") = Bool false
  ∧ Route.safeJsonParse (js "false") = Bool false.
Proof.
  split; [vm_compute; reflexivity|].
  apply (direct_parse_used (js "false") (Bool false)).
  vm_compute. reflexivity.
Defined.

(** C5, as stated, fails for [iterateCode]: in
    [Sure! {'modifiedCode':'','explanation':'set x'} Hope this helps!]
    the embedded object is a valid two-field object and the normalizer
    extracts it, but its [modifiedCode] is the empty string, which is
    falsy, so the result carries the whole raw text in its place. *)
Lemma embedded_empty_field_substituted :
  JSON_parse (lbrace :: Sample.inner_empty ++ [rbrace])
  = Some (result (Str []) (Str (js "set x")))
  ∧ Actions.safeJsonParse Sample.wrapped_empty_reply
    = result (Str []) (Str (js "set x"))
  ∧ outcome (Actions.iterateCode (Sample.answering Sample.wrapped_empty_reply)
               Sample.key Sample.code Sample.prompt)
    = Return (result (Str Sample.wrapped_empty_reply) (Str (js "set x")))
  ∧ Str Sample.wrapped_empty_reply ≠ Str [].
Proof. repeat split; try (vm_compute; reflexivity). discriminate. Qed.

(** C5, amended.  Let a raw text be a JSON object, from its opening to
    its closing brace, between a prefix and a suffix without braces, the
    whole not being JSON.  The normalizer returns the embedded object,
    and so does the route handler.  If moreover the object's
    [modifiedCode] and [explanation] are not falsy (non-empty strings,
    for instance), the result of [iterateCode] carries exactly these two
    values. *)
Theorem embedded_object_extracted
    (NumberToString : decimal → jsstring)
    (generateText : request → completion jsstring)
    (OPENAI_API_KEY : option jsstring)
    (code prompt req_body pre inner post : jsstring)
    (fields : gmap jsstring value) (mc ex : value) :
  contains lbrace pre = false → contains rbrace pre = false →
  contains lbrace post = false → contains rbrace post = false →
  JSON_parse (pre ++ lbrace :: inner ++ rbrace :: post) = None →
  JSON_parse (lbrace :: inner ++ [rbrace]) = Some (Obj fields) →
  fields !! js "modifiedCode" = Some mc →
  fields !! js "explanation" = Some ex →
  key_missing OPENAI_API_KEY = false →
  generateText (generation_request code prompt)
  = Return (pre ++ lbrace :: inner ++ rbrace :: post) →
  IterationRequest_of req_body = Some (code, prompt) →
  Actions.safeJsonParse (pre ++ lbrace :: inner ++ rbrace :: post) = Obj fields
  ∧ outcome (Route.POST NumberToString generateText OPENAI_API_KEY req_body)
    = Return (Route.Response 200 (Obj fields))
  ∧ (truthy mc = true → truthy ex = true →
     outcome (Actions.iterateCode generateText OPENAI_API_KEY code prompt)
     = Return (result mc ex)).
Proof.
  intros Hpl _ _ Hpr Ht Ho Hm He Hk Hg Hr.
  assert (Actions.safeJsonParse (pre ++ lbrace :: inner ++ rbrace :: post)
          = Obj fields) as Hs.
  { rewrite (safeJsonParse_span _ _ Ht (match_braces_span pre inner post Hpl Hpr)).
    by rewrite Ho. }
  split; [done|]. split.
  - unfold outcome.
    rewrite (POST_run NumberToString _ _ _ _ _ _ Hr Hk Hg).
    by rewrite Route_safeJsonParse_eq, Hs.
  - intros Tm Te.
    unfold outcome. rewrite (iterateCode_run _ _ code prompt _ mc ex Hk Hg).
    + by rewrite Tm, Te.
    + by rewrite Hs, get_field_obj, Hm.
    + by rewrite Hs, get_field_obj, He.
Qed.

Lemma embedded_object_extracted_witness :
  JSON_parse Sample.wrapped_reply = None
  ∧ Actions.safeJsonParse Sample.wrapped_reply
    = result (Str (js "x=1")) (Str (js "set x"))
  ∧ outcome (Route.POST Sample.NumberToString (Sample.answering Sample.wrapped_reply)
               Sample.key Sample.req_body)
    = Return (Route.Response 200 (result (Str (js "x=1")) (Str (js "set x"))))
  ∧ outcome (Actions.iterateCode (Sample.answering Sample.wrapped_reply) Sample.key
               Sample.code Sample.prompt)
    = Return (result (Str (js "x=1")) (Str (js "set x"))).
Proof.
  split; [vm_compute; reflexivity|].
  destruct (embedded_object_extracted Sample.NumberToString
              (Sample.answering Sample.wrapped_reply) Sample.key
              Sample.code Sample.prompt Sample.req_body
              (js "Sure! ") Sample.inner (js " Hope this helps!")
              (<[js "modifiedCode" := Str (js "x=1")]>
                 (<[js "explanation" := Str (js "set x")]> ∅))
              (Str (js "x=1")) (Str (js "set x")))
    as (Hs & Hr & Hi).
  1-11: vm_compute; reflexivity.
  split; [exact Hs|]. split; [exact Hr|].
  apply Hi; reflexivity.
Defined.

(** C6.  When the raw text is a JSON object whose [modifiedCode] and
    [explanation] are non-empty strings, the normalizer returns that
    object, [iterateCode] returns exactly the two strings, and the route
    handler's payload is the object, unchanged. *)
Theorem valid_object_unchanged
    (NumberToString : decimal → jsstring)
    (generateText : request → completion jsstring)
    (OPENAI_API_KEY : option jsstring)
    (code prompt req_body text : jsstring)
    (fields : gmap jsstring value) (mc ex : jsstring) :
  JSON_parse text = Some (Obj fields) →
  fields !! js "modifiedCode" = Some (Str mc) →
  fields !! js "explanation" = Some (Str ex) →
  mc ≠ [] → ex ≠ [] →
  key_missing OPENAI_API_KEY = false →
  generateText (generation_request code prompt) = Return text →
  IterationRequest_of req_body = Some (code, prompt) →
  Actions.safeJsonParse text = Obj fields
  ∧ outcome (Actions.iterateCode generateText OPENAI_API_KEY code prompt)
    = Return (result (Str mc) (Str ex))
  ∧ outcome (Route.POST NumberToString generateText OPENAI_API_KEY req_body)
    = Return (Route.Response 200 (Obj fields)).
Proof.
  intros Hp Hm He Hmc Hex Hk Hg Hr.
  pose proof (safeJsonParse_direct _ _ Hp) as Hs.
  split; [done|]. split.
  - unfold outcome.
    rewrite (iterateCode_run _ _ code prompt text (Str mc) (Str ex) Hk Hg).
    + by destruct mc, ex.
    + by rewrite Hs, get_field_obj, Hm.
    + by rewrite Hs, get_field_obj, He.
  - unfold outcome.
    rewrite (POST_run NumberToString _ _ _ _ _ _ Hr Hk Hg).
    by rewrite Route_safeJsonParse_eq, Hs.
Qed.

Lemma valid_object_unchanged_witness :
  Actions.safeJsonParse Sample.exact_reply
    = result (Str (js "function f(){console.log(1)}")) (Str (js "added log"))
  ∧ outcome (Actions.iterateCode (Sample.answering Sample.exact_reply) Sample.key
               Sample.code Sample.prompt)
    = Return (result (Str (js "function f(){console.log(1)}")) (Str (js "added log")))
  ∧ outcome (Route.POST Sample.NumberToString (Sample.answering Sample.exact_reply)
               Sample.key Sample.req_body)
    = Return (Route.Response 200
        (result (Str (js "function f(){console.log(1)}")) (Str (js "added log")))).
Proof.
  apply (valid_object_unchanged Sample.NumberToString
           (Sample.answering Sample.exact_reply) Sample.key
           Sample.code Sample.prompt Sample.req_body Sample.exact_reply
           (<[js "modifiedCode" := Str (js "function f(){console.log(1)}")]>
              (<[js "explanation" := Str (js "added log")]> ∅))
           (js "function f(){console.log(1)}") (js "added log")).
  - vm_compute. reflexivity.
  - vm_compute. reflexivity.
  - vm_compute. reflexivity.
  - discriminate.
  - discriminate.
  - reflexivity.
  - reflexivity.
  - vm_compute. reflexivity.
Defined.

(** A text none of whose substrings is JSON gets the synthetic result:
    the text itself and its brace span are among its substrings. *)
Lemma no_json_substring_synthetic text :
  (∀ a sub b, text = a ++ sub ++ b → JSON_parse sub = None) →
  Actions.safeJsonParse text = result (Str text) (Str diagnostic).
Proof.
  intros H. apply safeJsonParse_synthetic.
  - apply (H [] text []). by rewrite app_nil_r.
  - intros span (pre & mid & post & -> & _ & _ & ->)%match_braces_inv.
    apply (H pre _ post). cbn [app]. by rewrite <- (app_assoc mid).
Qed.

(** C7, as stated, fails: the text [true] contains neither brace, yet
    the normalizer returns the boolean it parses to, not the synthetic
    result. *)
Lemma braceless_json_not_synthetic :
  contains lbrace (js "true") = false
  ∧ contains rbrace (js "true") = false
  ∧ Actions.safeJsonParse (js "true") = Bool true
  ∧ Route.safeJsonParse (js "true") = Bool true
  ∧ Bool true ≠ result (Str (js "true")) (Str diagnostic).
Proof. repeat split; try (vm_compute; reflexivity). discriminate. Qed.

(** C7, amended.  When the raw text is not JSON and either has no opening
    brace, or has no closing brace, or has a brace span that is not JSON,
    the normalizer returns the synthetic result: [modifiedCode] is the
    raw text verbatim and [explanation] is the diagnostic.  A text none
    of whose substrings is JSON is such a text
    ([no_json_substring_synthetic]). *)
Theorem unparseable_gives_synthetic (text : jsstring) :
  JSON_parse text = None →
  (contains lbrace text = false ∨ contains rbrace text = false
   ∨ ∀ span, match_braces text = Some span → JSON_parse span = None) →
  Actions.safeJsonParse text = result (Str text) (Str diagnostic)
  ∧ Route.safeJsonParse text = result (Str text) (Str diagnostic).
Proof.
  intros Ht H.
  assert (Actions.safeJsonParse text = result (Str text) (Str diagnostic)) as Hs;
    [|split; exact Hs].
  apply safeJsonParse_synthetic; [done|].
  destruct H as [H|[H|H]]; [| |done].
  - intros span. by rewrite (match_braces_none text (or_introl H)).
  - intros span. by rewrite (match_braces_none text (or_intror H)).
Qed.

Lemma unparseable_gives_synthetic_witness :
  JSON_parse Sample.prose_reply = None
  ∧ contains lbrace Sample.prose_reply = false
  ∧ Actions.safeJsonParse Sample.prose_reply
    = result (Str Sample.prose_reply) (Str diagnostic)
  ∧ Route.safeJsonParse Sample.prose_reply
    = result (Str Sample.prose_reply) (Str diagnostic).
Proof.
  split; [vm_compute; reflexivity|]. split; [reflexivity|].
  apply (unparseable_gives_synthetic Sample.prose_reply).
  - vm_compute. reflexivity.
  - left. reflexivity.
Defined.




(** C9.  The regular expression matches from the first opening brace to
    the last closing brace, and when the whole text is not JSON step 2
    parses exactly that span.  Hence a reply made of a valid two-field
    object followed by prose that ends in a stray closing brace is not
    recovered: the span runs to the stray brace, does not parse, and the
    normalizer returns the synthetic result. *)
Theorem brace_span_greedy :
  (∀ pre inner post : jsstring,
     contains lbrace pre = false → contains rbrace post = false →
     match_braces (pre ++ lbrace :: inner ++ rbrace :: post)
     = Some (lbrace :: inner ++ [rbrace])
     ∧ (JSON_parse (pre ++ lbrace :: inner ++ rbrace :: post) = None →
        Actions.safeJsonParse (pre ++ lbrace :: inner ++ rbrace :: post)
        = match JSON_parse (lbrace :: inner ++ [rbrace]) with
          | Some v => v
          | None => result (Str (pre ++ lbrace :: inner ++ rbrace :: post))
                           (Str diagnostic)
          end))
  ∧ ∃ obj tail mc ex,
      JSON_parse obj = Some (result (Str mc) (Str ex))
      ∧ contains lbrace tail = false ∧ contains rbrace tail = true
      ∧ Actions.safeJsonParse (obj ++ tail)
        = result (Str (obj ++ tail)) (Str diagnostic).
Proof.
  split.
  - intros pre inner post Hpre Hpost.
    pose proof (match_braces_span pre inner post Hpre Hpost) as Hm.
    split; [done|]. intros Ht. by apply safeJsonParse_span.
  - exists (lbrace :: Sample.inner ++ [rbrace]), (js " That is all :}"),
      (js "x=1"), (js "set x").
    repeat split; vm_compute; reflexivity.
Qed.

Lemma brace_span_greedy_witness :
  match_braces Sample.stray_reply
  = Some (lbrace :: (Sample.inner ++ rbrace :: js " That is all :") ++ [rbrace])
  ∧ Actions.safeJsonParse Sample.stray_reply
    = result (Str Sample.stray_reply) (Str diagnostic).
Proof.
  destruct (proj1 brace_span_greedy [] (Sample.inner ++ rbrace :: js " That is all :") [])
    as [Hm Hs]; [reflexivity | reflexivity |].
  split; [exact Hm|].
  etransitivity; [apply Hs; vm_compute; reflexivity|].
  vm_compute. reflexivity.
Defined.

(** C10.  When the raw text parses to [null], the normalizer returns
    [null], and [iterateCode], reading [modifiedCode] of it, throws a
    [TypeError]; being an [Error], it is rethrown to the caller. *)
Theorem null_reply_throws
    (generateText : request → completion jsstring)
    (OPENAI_API_KEY : option jsstring)
    (code prompt text : jsstring) :
  JSON_parse text = Some Null →
  key_missing OPENAI_API_KEY = false →
  generateText (generation_request code prompt) = Return text →
  Actions.safeJsonParse text = Null
  ∧ Actions.iterateCode generateText OPENAI_API_KEY code prompt []
    = (Throw (TypeError_read (js "modifiedCode")), [generation_request code prompt])
  ∧ instanceof_Error (TypeError_read (js "modifiedCode")) = true.
Proof.
  intros Hp Hk Hg. pose proof (safeJsonParse_direct _ _ Hp) as Hs.
  split; [done|]. split; [|done].
  exact (iterateCode_null _ _ code prompt text Hk Hg Hs).
Qed.

Lemma null_reply_throws_witness :
  JSON_parse (js "null") = Some Null
  ∧ Actions.safeJsonParse (js "null") = Null
  ∧ outcome (Actions.iterateCode (Sample.answering (js "null")) Sample.key
               Sample.code Sample.prompt)
    = Throw (TypeError_read (js "modifiedCode")).
Proof.
  split; [vm_compute; reflexivity|].
  destruct (null_reply_throws (Sample.answering (js "null")) Sample.key
              Sample.code Sample.prompt (js "null")) as (Hs & Hi & _).
  - vm_compute. reflexivity.
  - reflexivity.
  - reflexivity.
  - split; [exact Hs|]. unfold outcome. by rewrite Hi.
Defined.

(** * Further properties of the code *)

(** ** White space and [trim] *)

Lemma trimStart_nil s : trimStart s = [] ↔ forallb is_js_ws s = true.
Proof.
  induction s as [|c s IH]; [done|]. cbn [trimStart forallb].
  destruct (is_js_ws c); [by rewrite IH|]. by split.
Qed.

Lemma trimStart_head s c t : trimStart s = c :: t → is_js_ws c = false.
Proof.
  induction s as [|d s IH]; [done|]. cbn [trimStart].
  destruct (is_js_ws d) eqn:E; [done|]. by intros [= <- _].
Qed.

Lemma forallb_rev (f : N → bool) s : forallb f (rev s) = forallb f s.
Proof.
  induction s as [|c s IH]; [done|]. cbn [rev forallb].
  rewrite forallb_app, IH. cbn [forallb]. rewrite andb_true_r. apply andb_comm.
Qed.

Lemma trimEnd_nil s : trimEnd s = [] ↔ forallb is_js_ws s = true.
Proof.
  unfold trimEnd. rewrite <- (forallb_rev _ s), <- trimStart_nil.
  split; [|by intros ->].
  intros H. apply (f_equal (@rev N)) in H. by rewrite rev_involutive in H.
Qed.

Lemma trim_nil s : trim s = [] ↔ forallb is_js_ws s = true.
Proof.
  unfold trim. rewrite trimEnd_nil, <- (trimStart_nil s).
  destruct (trimStart s) as [|c t] eqn:E; [by split|].
  apply trimStart_head in E. cbn [forallb]. rewrite E. by split.
Qed.

(** [!s.trim()]. *)
Lemma blank_iff s : truthy (Str (trim s)) = false ↔ forallb is_js_ws s = true.
Proof.
  rewrite <- trim_nil. cbn [truthy]. by destruct (trim s).
Qed.

Lemma blank_dec s :
  truthy (Str (trim s)) = negb (forallb is_js_ws s).
Proof.
  destruct (forallb is_js_ws s) eqn:E.
  - by apply blank_iff.
  - destruct (truthy (Str (trim s))) eqn:T; [done|].
    apply blank_iff in T. congruence.
Qed.

(** ** What the parser returns for which text *)

Lemma expect_spec p : ∀ s r, expect p s = Some r → s = p ++ r.
Proof.
  induction p as [|a p IH]; intros s r H; cbn [expect] in H.
  - by simplify_eq.
  - destruct s as [|b s]; [done|].
    destruct (a =? b) eqn:E; [|done]. apply N.eqb_eq in E as ->.
    by rewrite (IH _ _ H).
Qed.

Lemma expect_app p r : expect p (p ++ r) = Some r.
Proof.
  induction p as [|a p IH]; [done|]. cbn [app expect]. by rewrite N.eqb_refl.
Qed.

Lemma parse_shape fuel :
  (∀ s acc v r, parse_elements fuel s acc = Parsed v r → ∃ l, v = Arr l) ∧
  (∀ s acc v r, parse_members fuel s acc = Parsed v r → ∃ m, v = Obj m).
Proof.
  induction fuel as [|f [IHe IHm]]; [by split|]. split.
  - intros s acc v r H. cbn [parse_elements] in H.
    destruct (parse_value f s) as [v' rest| |]; try done.
    destruct (skip_ws rest) as [|c s']; [done|].
    destruct (c =? comma); [eauto|].
    destruct (c =? rbracket); [|done]. simplify_eq. eauto.
  - intros s acc v r H. cbn [parse_members] in H.
    destruct s as [|c s1]; [done|].
    destruct (c =? quote); [|done].
    destruct (string_chars s1) as [[k s2]|]; [|done].
    destruct (skip_ws s2) as [|c2 s3]; [done|].
    destruct (c2 =? colon); [|done].
    destruct (parse_value f (skip_ws s3)) as [v' rest| |]; try done.
    destruct (skip_ws rest) as [|c3 s4]; [done|].
    destruct (c3 =? comma); [eauto|].
    destruct (c3 =? rbrace); [|done]. simplify_eq. eauto.
Qed.

(** Only the literal gives [null]. *)
Lemma parse_value_null fuel s rest :
  parse_value fuel s = Parsed Null rest → expect (js "null") s = Some rest.
Proof.
  destruct fuel as [|f]; [done|]. cbn [parse_value]. intros H.
  destruct s as [|c s']; [done|].
  destruct (c =? lbrace).
  { destruct (skip_ws s') as [|c' s'']; [done|].
    destruct (c' =? rbrace); [done|].
    by apply (proj2 (parse_shape f)) in H as [m ?]. }
  destruct (c =? lbracket).
  { destruct (skip_ws s') as [|c' s'']; [done|].
    destruct (c' =? rbracket); [done|].
    by apply (proj1 (parse_shape f)) in H as [l ?]. }
  destruct (c =? quote); [by destruct (string_chars s') as [[??]|]|].
  destruct (c =? ch "t"); [by destruct (expect (js "true") _)|].
  destruct (c =? ch "f"); [by destruct (expect (js "false") _)|].
  destruct (c =? ch "n").
  { destruct (expect (js "null") (c :: s')) eqn:E; by simplify_eq. }
  by destruct (parse_number _) as [[??]|].
Qed.

(** A text that starts with an opening brace parses to an object, if it
    parses. *)
Lemma parse_value_lbrace fuel s v rest :
  parse_value fuel (lbrace :: s) = Parsed v rest → ∃ m, v = Obj m.
Proof.
  destruct fuel as [|f]; [done|]. cbn [parse_value]. rewrite N.eqb_refl.
  destruct (skip_ws s) as [|c' s'']; [done|].
  destruct (c' =? rbrace); [intros; simplify_eq; eauto|].
  apply (proj2 (parse_shape f)).
Qed.

Lemma JSON_parse_lbrace s v :
  JSON_parse (lbrace :: s) = Some v → ∃ m, v = Obj m.
Proof.
  unfold JSON_parse. change (skip_ws (lbrace :: s)) with (lbrace :: s).
  destruct (parse_value _ _) as [v' rest| |] eqn:E; try done.
  destruct (skip_ws rest); [|done]. intros; simplify_eq.
  by apply parse_value_lbrace in E.
Qed.

Lemma JSON_parse_null text :
  JSON_parse text = Some Null ↔ is_null_literal text = true.
Proof.
  unfold JSON_parse, is_null_literal. split.
  - destruct (parse_value _ _) as [v rest| |] eqn:E; try done.
    destruct (skip_ws rest) eqn:R; [|done]. intros; simplify_eq.
    apply parse_value_null in E. by rewrite E, R.
  - destruct (expect (js "null") (skip_ws text)) as [rest|] eqn:E; [|done].
    destruct (skip_ws rest) eqn:R; [|done]. intros _.
    rewrite (expect_spec _ _ _ E).
    replace (2 * length text + 1)%nat with (S (2 * length text)) by lia.
    change (parse_value (S (2 * length text)) (js "null" ++ rest))
      with (match expect (js "null") (js "null" ++ rest) with
            | Some rest => Parsed Null rest
            | None => SyntaxError
            end).
    by rewrite expect_app, R.
Qed.

Lemma safeJsonParse_object text :
  JSON_parse text = None → ∃ m, Actions.safeJsonParse text = Obj m.
Proof.
  intros Ht.
  destruct (match_braces text) as [span|] eqn:Em.
  - rewrite (safeJsonParse_span text span Ht Em).
    apply match_braces_inv in Em as (pre & inner & post & _ & _ & _ & ->).
    destruct (JSON_parse (lbrace :: inner ++ [rbrace])) as [v|] eqn:Es;
      [|unfold result; eauto].
    by apply JSON_parse_lbrace in Es.
  - rewrite safeJsonParse_synthetic; [unfold result; eauto|done|].
    intros span. by rewrite Em.
Qed.

Lemma safeJsonParse_null text :
  Actions.safeJsonParse text = Null ↔ JSON_parse text = Some Null.
Proof.
  split; [|apply safeJsonParse_direct].
  destruct (JSON_parse text) as [v|] eqn:Ht.
  - by rewrite (safeJsonParse_direct _ _ Ht); intros ->.
  - by destruct (safeJsonParse_object text Ht) as [m ->].
Qed.

(** ** All runs of [iterateCode] *)

Section all_runs.
Variable generateText : request → completion jsstring.
Variable OPENAI_API_KEY : option jsstring.

(** A run makes no call without a key and one call with one; it throws
    only instances of [Error]; what it returns has the two fields, both
    truthy. *)
Lemma iterateCode_spec code prompt :
  ∃ c, Actions.iterateCode generateText OPENAI_API_KEY code prompt []
       = (c, if key_missing OPENAI_API_KEY then []
             else [generation_request code prompt])
    ∧ match c with
      | Throw e => instanceof_Error e = true
      | Return r => ∃ mc ex, r = result mc ex
                             ∧ truthy mc = true ∧ truthy ex = true
      end.
Proof.
  destruct (key_missing OPENAI_API_KEY) eqn:Hk.
  { eexists. split; [by apply iterateCode_no_key|done]. }
  destruct (generateText (generation_request code prompt)) as [text|e] eqn:Hg.
  - assert (Actions.safeJsonParse text = Null ∨ Actions.safeJsonParse text ≠ Null)
      as [Hn|Hn] by (destruct (Actions.safeJsonParse text); auto).
    + eexists. split; [exact (iterateCode_null _ _ code prompt text Hk Hg Hn)|done].
    + destruct (get_field_returns (Actions.safeJsonParse text) (js "modifiedCode"))
        as [fm Hm]; [apply safeJsonParse_defined | done |].
      destruct (get_field_returns (Actions.safeJsonParse text) (js "explanation"))
        as [fe He]; [apply safeJsonParse_defined | done |].
      eexists. split; [exact (iterateCode_run _ _ code prompt text fm fe Hk Hg Hm He)|].
      unfold or_else.
      destruct (truthy fm) eqn:Tm, (truthy fe) eqn:Te; cbn [andb];
        try (destruct text as [|c t]); cbn [truthy];
        rewrite ?Tm, ?Te; do 2 eexists; (split; [reflexivity|]); by split.
  - eexists. split; [exact (iterateCode_generation_fails _ _ code prompt e Hk Hg)|].
    by destruct e.
Qed.

End all_runs.

(** ** Runs of the handlers of the page *)

Section handler_runs.
Variable generateText : request → completion jsstring.
Variable OPENAI_API_KEY : option jsstring.

Import CodeIterator.

Lemma handleSubmit_blank_code s :
  truthy (Str (trim (code s))) = false →
  handleSubmit generateText OPENAI_API_KEY s [] = (Return (s, [missing_code_toast]), []).
Proof. unfold handleSubmit. by intros ->. Qed.

Lemma handleSubmit_blank_prompt s :
  truthy (Str (trim (code s))) = true →
  truthy (Str (trim (prompt s))) = false →
  handleSubmit generateText OPENAI_API_KEY s [] = (Return (s, [missing_prompt_toast]), []).
Proof. unfold handleSubmit. by intros -> ->. Qed.

Lemma handleSubmit_returned s mc ex log :
  truthy (Str (trim (code s))) = true →
  truthy (Str (trim (prompt s))) = true →
  Actions.iterateCode generateText OPENAI_API_KEY (code s) (prompt s) []
  = (Return (result mc ex), log) →
  truthy mc = true → truthy ex = true →
  handleSubmit generateText OPENAI_API_KEY s []
  = (Return (setIsLoading false (setError None (setResponse (result mc ex) (pending s))),
             []), log).
Proof.
  intros Hc Hp Hrun Tm Te.
  unfold handleSubmit, try_catch, mbind, M_bind, lift, mret, M_ret.
  rewrite Hc, Hp. cbn [negb]. rewrite Hrun.
  rewrite result_modifiedCode, Tm, result_explanation, Te. done.
Qed.

Lemma handleSubmit_thrown s e log :
  truthy (Str (trim (code s))) = true →
  truthy (Str (trim (prompt s))) = true →
  Actions.iterateCode generateText OPENAI_API_KEY (code s) (prompt s) []
  = (Throw e, log) →
  handleSubmit generateText OPENAI_API_KEY s []
  = (Return (setIsLoading false
               (setResponse Null (setError (Some (errorMessage e)) (pending s))),
             [error_toast (errorMessage e)]), log).
Proof.
  intros Hc Hp Hrun.
  unfold handleSubmit, try_catch, mbind, M_bind, lift, mret, M_ret.
  rewrite Hc, Hp. cbn [negb]. by rewrite Hrun.
Qed.

Lemma handleRetry_returned s r log :
  code s ≠ [] → prompt s ≠ [] →
  Actions.iterateCode generateText OPENAI_API_KEY (code s) (prompt s ++ hint) []
  = (Return r, log) →
  handleRetry generateText OPENAI_API_KEY s []
  = (Return (setIsLoading false (setError None (setResponse r (pending s))),
             [retrying_toast]), log).
Proof.
  intros Hc Hp Hrun.
  unfold handleRetry, try_catch, mbind, M_bind, lift, mret, M_ret.
  destruct (code s) as [|c cs] eqn:Ec; [done|].
  destruct (prompt s) as [|p ps] eqn:Ep; [done|].
  cbn [truthy negb orb]. by rewrite Hrun.
Qed.

Lemma handleRetry_thrown s e log :
  code s ≠ [] → prompt s ≠ [] →
  Actions.iterateCode generateText OPENAI_API_KEY (code s) (prompt s ++ hint) []
  = (Throw e, log) →
  handleRetry generateText OPENAI_API_KEY s []
  = (Return (setIsLoading false
               (setResponse Null (setError (Some (errorMessage e)) (pending s))),
             [retrying_toast]), log).
Proof.
  intros Hc Hp Hrun.
  unfold handleRetry, try_catch, mbind, M_bind, lift, mret, M_ret.
  destruct (code s) as [|c cs] eqn:Ec; [done|].
  destruct (prompt s) as [|p ps] eqn:Ep; [done|].
  cbn [truthy negb orb]. by rewrite Hrun.
Qed.

End handler_runs.

(** X1.  The route handler never throws: it always answers, with status
    200, 400 or 500, after at most one generation call.  It answers 200
    only when the call returned a text, and the payload is then the
    normalization of that text; 400 comes with the validation message and
    no call; 500 comes with the configuration message and no call, or
    with the generic message, after no call or after a call that
    threw. *)
Theorem POST_always_answers
    (NumberToString : decimal → jsstring)
    (generateText : request → completion jsstring)
    (OPENAI_API_KEY : option jsstring) (req_body : jsstring) :
  ∃ resp log,
    Route.POST NumberToString generateText OPENAI_API_KEY req_body []
    = (Return resp, log)
    ∧ ((Route.status resp = 200%nat
        ∧ ∃ req text, log = [req] ∧ generateText req = Return text
                      ∧ Route.body resp = Route.safeJsonParse text)
       ∨ (Route.status resp = 400%nat ∧ log = []
          ∧ Route.body resp = Route.error_body Route.required_message)
       ∨ (Route.status resp = 500%nat
          ∧ ((log = [] ∧ Route.body resp = Route.error_body key_message)
             ∨ (Route.body resp = Route.error_body Route.unexpected_message
                ∧ (log = [] ∨ ∃ req e, log = [req] ∧ generateText req = Throw e))))).
Proof.
  unfold Route.POST, try_catch, mbind, M_bind, await_call, lift, mret, M_ret.
  destruct (JSON_parse req_body) as [json|]; [|eauto 12].
  destruct (get_field json (js "code")) as [code|?]; [|eauto 12].
  destruct (get_field json (js "prompt")) as [prompt|?]; [|eauto 12].
  destruct (negb (truthy code) || negb (truthy prompt)); [eauto 12|].
  destruct (key_missing OPENAI_API_KEY); [eauto 12|].
  destruct (ToString NumberToString code) as [code_text|?]; [|eauto 12].
  destruct (ToString NumberToString prompt) as [prompt_text|?]; [|eauto 12].
  destruct (generateText (generation_request code_text prompt_text))
    as [text|e] eqn:Hg.
  - do 2 eexists. split; [reflexivity|]. left. cbn. eauto 6.
  - do 2 eexists. split; [reflexivity|]. right. right. cbn. eauto 10.
Qed.

(** X2.  The route handler validates before anything else: for a body
    that is a JSON value other than [null], it answers 400 with the
    validation message and makes no call exactly when [code] or [prompt]
    is falsy (missing, empty, [null], [false] or zero), whether or not a
    key is configured; otherwise it answers 200 or 500. *)
Theorem POST_validates_first
    (NumberToString : decimal → jsstring)
    (generateText : request → completion jsstring)
    (OPENAI_API_KEY : option jsstring)
    (req_body : jsstring) (json code prompt : value) :
  JSON_parse req_body = Some json →
  get_field json (js "code") = Return code →
  get_field json (js "prompt") = Return prompt →
  (truthy code && truthy prompt = false →
   Route.POST NumberToString generateText OPENAI_API_KEY req_body []
   = (Return (Route.Response 400 (Route.error_body Route.required_message)), []))
  ∧ (truthy code && truthy prompt = true →
     ∃ resp log,
       Route.POST NumberToString generateText OPENAI_API_KEY req_body []
       = (Return resp, log)
       ∧ (Route.status resp = 200%nat ∨ Route.status resp = 500%nat)).
Proof.
  intros Hj Hc Hp. split.
  - intros [H|H]%andb_false_iff;
      apply (POST_rejects_empty _ _ _ _ _ _ _ Hj Hc Hp); auto.
  - intros [Tc Tp]%andb_true_iff.
    unfold Route.POST, try_catch, mbind, M_bind, await_call, lift, mret, M_ret.
    rewrite Hj, Hc, Hp, Tc, Tp. cbn [negb orb].
    destruct (key_missing OPENAI_API_KEY); [eauto 6|].
    destruct (ToString NumberToString code) as [code_text|?]; [|eauto 6].
    destruct (ToString NumberToString prompt) as [prompt_text|?]; [|eauto 6].
    destruct (generateText _); eauto 6.
Qed.

Lemma POST_validates_first_witness :
  Route.POST Sample.NumberToString (Sample.answering Sample.exact_reply) Sample.key
    Demo.empty_code_body []
  = (Return (Route.Response 400 (Route.error_body Route.required_message)), [])
  ∧ Route.POST Sample.NumberToString (Sample.answering Sample.exact_reply) None
      Demo.empty_code_body []
    = (Return (Route.Response 400 (Route.error_body Route.required_message)), []).
Proof.
  split.
  - apply (POST_validates_first Sample.NumberToString
             (Sample.answering Sample.exact_reply) Sample.key Demo.empty_code_body
             (Obj (<[js "code" := Str []]> (<[js "prompt" := Str Sample.prompt]> ∅)))
             (Str []) (Str Sample.prompt)); vm_compute; reflexivity.
  - apply (POST_validates_first Sample.NumberToString
             (Sample.answering Sample.exact_reply) None Demo.empty_code_body
             (Obj (<[js "code" := Str []]> (<[js "prompt" := Str Sample.prompt]> ∅)))
             (Str []) (Str Sample.prompt)); vm_compute; reflexivity.
Defined.

(** X3.  A request whose body is not JSON, or is the JSON literal
    [null], is answered 500 with the generic message, not 400, and no
    call is made: reading the body, or taking [code] and [prompt] out of
    [null], throws inside the handler's [try]. *)
Theorem POST_bad_body
    (NumberToString : decimal → jsstring)
    (generateText : request → completion jsstring)
    (OPENAI_API_KEY : option jsstring) (req_body : jsstring) :
  JSON_parse req_body = None ∨ is_null_literal req_body = true →
  Route.POST NumberToString generateText OPENAI_API_KEY req_body []
  = (Return (Route.Response 500 (Route.error_body Route.unexpected_message)), []).
Proof.
  unfold Route.POST, try_catch, mbind, M_bind, lift, mret, M_ret.
  intros [->|H]; [done|]. apply JSON_parse_null in H. by rewrite H.
Qed.

Lemma POST_bad_body_witness :
  JSON_parse Sample.prose_reply = None
  ∧ Route.POST Sample.NumberToString (Sample.answering Sample.exact_reply) Sample.key
      Sample.prose_reply []
    = (Return (Route.Response 500 (Route.error_body Route.unexpected_message)), [])
  ∧ Route.POST Sample.NumberToString (Sample.answering Sample.exact_reply) Sample.key
      (js " null ") []
    = (Return (Route.Response 500 (Route.error_body Route.unexpected_message)), []).
Proof.
  split; [vm_compute; reflexivity|]. split.
  - apply (POST_bad_body Sample.NumberToString (Sample.answering Sample.exact_reply)
             Sample.key Sample.prose_reply).
    left. vm_compute. reflexivity.
  - apply (POST_bad_body Sample.NumberToString (Sample.answering Sample.exact_reply)
             Sample.key (js " null ")).
    right. vm_compute. reflexivity.
Defined.

(** X4.  When the generation call throws, [iterateCode] rethrows an
    [Error] as it is, message included, and replaces any other thrown
    value by an [Error] with its generic message; the route handler
    answers 500 with its own generic message whatever was thrown.  One
    call was made in both cases: there is no retry. *)
Theorem generation_failure_surfaces
    (NumberToString : decimal → jsstring)
    (generateText : request → completion jsstring)
    (OPENAI_API_KEY : option jsstring)
    (code prompt req_body : jsstring) (e : exn) :
  key_missing OPENAI_API_KEY = false →
  generateText (generation_request code prompt) = Throw e →
  IterationRequest_of req_body = Some (code, prompt) →
  Actions.iterateCode generateText OPENAI_API_KEY code prompt []
  = (Throw (match e with
            | ErrorObject _ _ => e
            | Thrown _ => Error Actions.generic_message
            end), [generation_request code prompt])
  ∧ Route.POST NumberToString generateText OPENAI_API_KEY req_body []
    = (Return (Route.Response 500 (Route.error_body Route.unexpected_message)),
       [generation_request code prompt]).
Proof.
  intros Hk Hg Hr. split.
  - rewrite (iterateCode_generation_fails _ _ code prompt e Hk Hg). by destruct e.
  - exact (POST_generation_fails NumberToString _ _ _ _ _ e Hr Hk Hg).
Qed.

Lemma generation_failure_surfaces_witness :
  Actions.iterateCode Demo.failing Sample.key Sample.code Sample.prompt []
  = (Throw (Error (js "rate limit exceeded")),
     [generation_request Sample.code Sample.prompt])
  ∧ Route.POST Sample.NumberToString Demo.failing Sample.key Sample.req_body []
    = (Return (Route.Response 500 (Route.error_body Route.unexpected_message)),
       [generation_request Sample.code Sample.prompt]).
Proof.
  apply (generation_failure_surfaces Sample.NumberToString Demo.failing Sample.key
           Sample.code Sample.prompt Sample.req_body
           (Error (js "rate limit exceeded"))).
  - reflexivity.
  - reflexivity.
  - vm_compute. reflexivity.
Defined.

(** X5.  Whatever the service answers, [iterateCode] makes no call
    without a key and exactly one call with one, and it ends in one of
    two ways: it throws an instance of [Error], or it returns an object
    with exactly the fields [modifiedCode] and [explanation], both
    truthy. *)
Theorem iterateCode_postcondition
    (generateText : request → completion jsstring)
    (OPENAI_API_KEY : option jsstring) (code prompt : jsstring) :
  calls (Actions.iterateCode generateText OPENAI_API_KEY code prompt)
  = (if key_missing OPENAI_API_KEY then [] else [generation_request code prompt])
  ∧ match outcome (Actions.iterateCode generateText OPENAI_API_KEY code prompt) with
    | Throw e => instanceof_Error e = true
    | Return r => ∃ mc ex, r = result mc ex ∧ populated r = true
    end.
Proof.
  destruct (iterateCode_spec generateText OPENAI_API_KEY code prompt) as (c & Hrun & Hc).
  unfold calls, outcome. rewrite Hrun. split; [done|]. cbn [fst].
  destruct c as [r|e]; [|done].
  destruct Hc as (mc & ex & -> & Tm & Te). exists mc, ex. split; [done|].
  unfold populated. by rewrite result_modifiedCode, result_explanation, Tm, Te.
Qed.

(** X6.  For a body that carries an IterationRequest, the route handler
    makes exactly the generation calls [iterateCode] makes for the same
    code and prompt: the same request, or none when the key is
    missing. *)
Theorem entry_points_send_same_request
    (NumberToString : decimal → jsstring)
    (generateText : request → completion jsstring)
    (OPENAI_API_KEY : option jsstring)
    (code prompt req_body : jsstring) :
  IterationRequest_of req_body = Some (code, prompt) →
  calls (Route.POST NumberToString generateText OPENAI_API_KEY req_body)
  = calls (Actions.iterateCode generateText OPENAI_API_KEY code prompt).
Proof.
  intros Hr.
  destruct (iterateCode_spec generateText OPENAI_API_KEY code prompt)
    as (c & Hrun & _).
  unfold calls at 2. rewrite Hrun. cbn [snd]. unfold calls.
  destruct (key_missing OPENAI_API_KEY) eqn:Hk.
  - by rewrite (POST_no_key NumberToString _ _ _ _ _ Hr Hk).
  - destruct (generateText (generation_request code prompt)) as [text|e] eqn:Hg.
    + by rewrite (POST_run NumberToString _ _ _ _ _ _ Hr Hk Hg).
    + by rewrite (POST_generation_fails NumberToString _ _ _ _ _ e Hr Hk Hg).
Qed.

Lemma entry_points_send_same_request_witness :
  calls (Route.POST Sample.NumberToString (Sample.answering Sample.exact_reply)
           Sample.key Sample.req_body)
  = calls (Actions.iterateCode (Sample.answering Sample.exact_reply) Sample.key
             Sample.code Sample.prompt).
Proof.
  apply (entry_points_send_same_request Sample.NumberToString
           (Sample.answering Sample.exact_reply) Sample.key
           Sample.code Sample.prompt Sample.req_body).
  vm_compute. reflexivity.
Defined.

(** X7.  After a generation call that returned, [iterateCode] fails
    exactly when the reply is the literal [null] between optional white
    space; it then throws the [TypeError], while the route handler
    answers 200 with the payload [null].  On every other reply
    [iterateCode] returns. *)
Theorem iterateCode_fails_only_on_null
    (NumberToString : decimal → jsstring)
    (generateText : request → completion jsstring)
    (OPENAI_API_KEY : option jsstring)
    (code prompt req_body text : jsstring) :
  key_missing OPENAI_API_KEY = false →
  generateText (generation_request code prompt) = Return text →
  IterationRequest_of req_body = Some (code, prompt) →
  (if is_null_literal text
   then outcome (Actions.iterateCode generateText OPENAI_API_KEY code prompt)
        = Throw (TypeError_read (js "modifiedCode"))
        ∧ outcome (Route.POST NumberToString generateText OPENAI_API_KEY req_body)
          = Return (Route.Response 200 Null)
   else ∃ r, outcome (Actions.iterateCode generateText OPENAI_API_KEY code prompt)
             = Return r).
Proof.
  intros Hk Hg Hr.
  destruct (is_null_literal text) eqn:Hn.
  - apply JSON_parse_null in Hn. pose proof (safeJsonParse_direct _ _ Hn) as Hs.
    unfold outcome. split.
    + by rewrite (iterateCode_null _ _ code prompt text Hk Hg Hs).
    + rewrite (POST_run NumberToString _ _ _ _ _ _ Hr Hk Hg).
      by rewrite Route_safeJsonParse_eq, Hs.
  - assert (Actions.safeJsonParse text ≠ Null) as Hs.
    { intros H%safeJsonParse_null%JSON_parse_null. congruence. }
    destruct (get_field_returns (Actions.safeJsonParse text) (js "modifiedCode"))
      as [fm Hm]; [apply safeJsonParse_defined | done |].
    destruct (get_field_returns (Actions.safeJsonParse text) (js "explanation"))
      as [fe He]; [apply safeJsonParse_defined | done |].
    unfold outcome.
    rewrite (iterateCode_run _ _ code prompt text fm fe Hk Hg Hm He). eauto.
Qed.

Lemma iterateCode_fails_only_on_null_witness :
  is_null_literal (js " null ") = true
  ∧ outcome (Actions.iterateCode (Sample.answering (js " null ")) Sample.key
               Sample.code Sample.prompt)
    = Throw (TypeError_read (js "modifiedCode"))
  ∧ outcome (Route.POST Sample.NumberToString (Sample.answering (js " null "))
               Sample.key Sample.req_body)
    = Return (Route.Response 200 Null).
Proof.
  split; [vm_compute; reflexivity|].
  apply (iterateCode_fails_only_on_null Sample.NumberToString
           (Sample.answering (js " null ")) Sample.key
           Sample.code Sample.prompt Sample.req_body (js " null ")).
  - reflexivity.
  - reflexivity.
  - vm_compute. reflexivity.
Defined.

(** X8.  When the direct parse of the text fails, the normalizer returns
    an object: the brace span starts with an opening brace, so it parses
    to an object if it parses, and the synthetic result is an object.  A
    value that is not an object can only come from the direct parse. *)
Theorem fallback_gives_object (text : jsstring) :
  JSON_parse text = None →
  ∃ m, Actions.safeJsonParse text = Obj m ∧ Route.safeJsonParse text = Obj m.
Proof.
  intros Ht. destruct (safeJsonParse_object text Ht) as [m Hm]. by exists m.
Qed.

Lemma fallback_gives_object_witness :
  JSON_parse Sample.wrapped_reply = None
  ∧ ∃ m, Actions.safeJsonParse Sample.wrapped_reply = Obj m
         ∧ Route.safeJsonParse Sample.wrapped_reply = Obj m.
Proof.
  split; [vm_compute; reflexivity|].
  apply (fallback_gives_object Sample.wrapped_reply).
  vm_compute. reflexivity.
Defined.

(** X9.  [handleSubmit] rejects a code or a prompt made of white space
    only (the empty string included): it shows one toast, for the code
    if the code is blank and else for the prompt, makes no call and
    leaves the state as it is. *)
Theorem handleSubmit_rejects_blank
    (generateText : request → completion jsstring)
    (OPENAI_API_KEY : option jsstring) (s : CodeIterator.state) :
  forallb is_js_ws (CodeIterator.code s) = true
  ∨ forallb is_js_ws (CodeIterator.prompt s) = true →
  CodeIterator.handleSubmit generateText OPENAI_API_KEY s []
  = (Return (s, [if forallb is_js_ws (CodeIterator.code s)
                 then CodeIterator.missing_code_toast
                 else CodeIterator.missing_prompt_toast]), []).
Proof.
  intros H. destruct (forallb is_js_ws (CodeIterator.code s)) eqn:Hc.
  - apply handleSubmit_blank_code. by apply blank_iff.
  - destruct H as [H|H]; [done|].
    apply handleSubmit_blank_prompt; [by rewrite blank_dec, Hc | by apply blank_iff].
Qed.

Lemma handleSubmit_rejects_blank_witness :
  CodeIterator.handleSubmit (Sample.answering Sample.exact_reply) Sample.key
    Demo.blank_code []
  = (Return (Demo.blank_code, [CodeIterator.missing_code_toast]), []).
Proof.
  apply (handleSubmit_rejects_blank (Sample.answering Sample.exact_reply) Sample.key
           Demo.blank_code).
  left. reflexivity.
Defined.

(** X10.  With a code and a prompt that are not blank, [handleSubmit]
    calls [iterateCode] once and settles: [isLoading] is false again, the
    code, the prompt and the final code are untouched, and either the
    response is the populated result with no error and no toast, or the
    response is [null] and the error and the one toast carry the message
    of the [Error] thrown. *)
Theorem handleSubmit_settles
    (generateText : request → completion jsstring)
    (OPENAI_API_KEY : option jsstring) (s : CodeIterator.state) :
  forallb is_js_ws (CodeIterator.code s) = false →
  forallb is_js_ws (CodeIterator.prompt s) = false →
  ∃ s' toasts,
    CodeIterator.handleSubmit generateText OPENAI_API_KEY s []
    = (Return (s', toasts),
       if key_missing OPENAI_API_KEY then []
       else [generation_request (CodeIterator.code s) (CodeIterator.prompt s)])
    ∧ CodeIterator.isLoading s' = false
    ∧ CodeIterator.code s' = CodeIterator.code s
    ∧ CodeIterator.prompt s' = CodeIterator.prompt s
    ∧ CodeIterator.finalCode s' = CodeIterator.finalCode s
    ∧ match outcome (Actions.iterateCode generateText OPENAI_API_KEY
                       (CodeIterator.code s) (CodeIterator.prompt s)) with
      | Return r =>
        CodeIterator.response s' = r ∧ populated r = true
        ∧ CodeIterator.error s' = None ∧ toasts = []
      | Throw e =>
        CodeIterator.response s' = Null
        ∧ (∃ name message, e = ErrorObject name message
             ∧ CodeIterator.error s' = Some message
             ∧ toasts = [CodeIterator.error_toast message])
      end.
Proof.
  intros Hc Hp.
  assert (truthy (Str (trim (CodeIterator.code s))) = true) as Tc
    by (by rewrite blank_dec, Hc).
  assert (truthy (Str (trim (CodeIterator.prompt s))) = true) as Tp
    by (by rewrite blank_dec, Hp).
  destruct (iterateCode_spec generateText OPENAI_API_KEY
              (CodeIterator.code s) (CodeIterator.prompt s)) as (c & Hrun & H).
  unfold outcome. rewrite Hrun. cbn [fst].
  destruct c as [r|e].
  - destruct H as (mc & ex & -> & Tm & Te).
    do 2 eexists. split; [exact (handleSubmit_returned _ _ s mc ex _ Tc Tp Hrun Tm Te)|].
    repeat split.
    unfold populated. by rewrite result_modifiedCode, result_explanation, Tm, Te.
  - do 2 eexists. split; [exact (handleSubmit_thrown _ _ s e _ Tc Tp Hrun)|].
    repeat split. destruct e as [name message|v]; [|done]. by exists name, message.
Qed.

Lemma handleSubmit_settles_witness :
  ∃ s',
    CodeIterator.handleSubmit (Sample.answering Sample.exact_reply) Sample.key
      Demo.typed []
    = (Return (s', []), [generation_request Sample.code Sample.prompt])
    ∧ CodeIterator.isLoading s' = false
    ∧ CodeIterator.response s'
      = result (Str (js "function f(){console.log(1)}")) (Str (js "added log"))
    ∧ CodeIterator.error s' = None.
Proof.
  destruct (handleSubmit_settles (Sample.answering Sample.exact_reply) Sample.key
              Demo.typed) as (s' & toasts & Hrun & Hl & _ & _ & _ & H).
  - reflexivity.
  - reflexivity.
  - vm_compute in H. destruct H as (Hr & _ & He & ->).
    exists s'. split; [exact Hrun|]. split; [exact Hl|]. split; [exact Hr | exact He].
Defined.

(** X11.  [handleSubmit] never throws, makes at most one call and shows
    at most one toast, which is never the incomplete-response warning:
    what [iterateCode] returns is always populated.  The toast of a
    failure carries the message of the [Error] thrown, never the
    handler's own fallback message. *)
Theorem handleSubmit_never_warns
    (generateText : request → completion jsstring)
    (OPENAI_API_KEY : option jsstring) (s : CodeIterator.state) :
  ∃ s' toasts log,
    CodeIterator.handleSubmit generateText OPENAI_API_KEY s []
    = (Return (s', toasts), log)
    ∧ (length log ≤ 1)%nat
    ∧ (toasts = []
       ∨ toasts = [CodeIterator.missing_code_toast]
       ∨ toasts = [CodeIterator.missing_prompt_toast]
       ∨ ∃ name message,
           outcome (Actions.iterateCode generateText OPENAI_API_KEY
                      (CodeIterator.code s) (CodeIterator.prompt s))
           = Throw (ErrorObject name message)
           ∧ toasts = [CodeIterator.error_toast message]).
Proof.
  destruct (forallb is_js_ws (CodeIterator.code s)) eqn:Hc.
  { do 3 eexists. split; [apply handleSubmit_blank_code; by apply blank_iff|].
    cbn [length]. split; [lia|]. auto. }
  destruct (forallb is_js_ws (CodeIterator.prompt s)) eqn:Hp.
  { do 3 eexists. split;
      [apply handleSubmit_blank_prompt; [by rewrite blank_dec, Hc | by apply blank_iff]|].
    cbn [length]. split; [lia|]. auto. }
  assert (truthy (Str (trim (CodeIterator.code s))) = true) as Tc
    by (by rewrite blank_dec, Hc).
  assert (truthy (Str (trim (CodeIterator.prompt s))) = true) as Tp
    by (by rewrite blank_dec, Hp).
  destruct (iterateCode_spec generateText OPENAI_API_KEY
              (CodeIterator.code s) (CodeIterator.prompt s)) as (c & Hrun & H).
  unfold outcome. rewrite Hrun. cbn [fst].
  destruct c as [r|e].
  - destruct H as (mc & ex & -> & Tm & Te).
    do 3 eexists. split; [exact (handleSubmit_returned _ _ s mc ex _ Tc Tp Hrun Tm Te)|].
    split; [by destruct (key_missing OPENAI_API_KEY); cbn [length]; lia|]. auto.
  - do 3 eexists. split; [exact (handleSubmit_thrown _ _ s e _ Tc Tp Hrun)|].
    split; [by destruct (key_missing OPENAI_API_KEY); cbn [length]; lia|].
    destruct e as [name message|v]; [|done]. do 3 right. by exists name, message.
Qed.

(** X12.  With a code and a prompt that are not empty, [handleRetry]
    shows the retrying toast, calls [iterateCode] once with the prompt
    extended by the formatting hint, leaves the code and the prompt of
    the state untouched and settles like a submit: [isLoading] is false,
    and either the response is the populated result with no error, or it
    is [null] with the message of the [Error] thrown as error. *)
Theorem handleRetry_settles
    (generateText : request → completion jsstring)
    (OPENAI_API_KEY : option jsstring) (s : CodeIterator.state) :
  CodeIterator.code s ≠ [] → CodeIterator.prompt s ≠ [] →
  ∃ s',
    CodeIterator.handleRetry generateText OPENAI_API_KEY s []
    = (Return (s', [CodeIterator.retrying_toast]),
       if key_missing OPENAI_API_KEY then []
       else [generation_request (CodeIterator.code s)
               (CodeIterator.prompt s ++ CodeIterator.hint)])
    ∧ CodeIterator.isLoading s' = false
    ∧ CodeIterator.code s' = CodeIterator.code s
    ∧ CodeIterator.prompt s' = CodeIterator.prompt s
    ∧ CodeIterator.finalCode s' = CodeIterator.finalCode s
    ∧ match outcome (Actions.iterateCode generateText OPENAI_API_KEY
                       (CodeIterator.code s)
                       (CodeIterator.prompt s ++ CodeIterator.hint)) with
      | Return r =>
        CodeIterator.response s' = r ∧ populated r = true
        ∧ CodeIterator.error s' = None
      | Throw e =>
        CodeIterator.response s' = Null
        ∧ ∃ name message, e = ErrorObject name message
            ∧ CodeIterator.error s' = Some message
      end.
Proof.
  intros Hc Hp.
  destruct (iterateCode_spec generateText OPENAI_API_KEY (CodeIterator.code s)
              (CodeIterator.prompt s ++ CodeIterator.hint)) as (c & Hrun & H).
  unfold outcome. rewrite Hrun. cbn [fst].
  destruct c as [r|e].
  - destruct H as (mc & ex & -> & Tm & Te).
    eexists. split; [exact (handleRetry_returned _ _ s _ _ Hc Hp Hrun)|].
    repeat split.
    unfold populated. by rewrite result_modifiedCode, result_explanation, Tm, Te.
  - eexists. split; [exact (handleRetry_thrown _ _ s e _ Hc Hp Hrun)|].
    repeat split. destruct e as [name message|v]; [|done]. by exists name, message.
Qed.

Lemma handleRetry_settles_witness :
  ∃ s',
    CodeIterator.handleRetry Demo.failing Sample.key Demo.typed []
    = (Return (s', [CodeIterator.retrying_toast]),
       [generation_request Sample.code (Sample.prompt ++ CodeIterator.hint)])
    ∧ CodeIterator.isLoading s' = false
    ∧ CodeIterator.response s' = Null
    ∧ CodeIterator.error s' = Some (js "rate limit exceeded").
Proof.
  destruct (handleRetry_settles Demo.failing Sample.key Demo.typed)
    as (s' & Hrun & Hl & _ & _ & _ & H).
  - discriminate.
  - discriminate.
  - vm_compute in H. destruct H as (Hr & name & message & He & Hm).
    exists s'. split; [exact Hrun|]. split; [exact Hl|]. split; [exact Hr|].
    injection He as _ <-. exact Hm.
Defined.

(** X13.  The guard of [handleRetry] is weaker than that of
    [handleSubmit]: on a state whose code or prompt is blank,
    [handleSubmit] makes no call, while [handleRetry], with a key
    configured, makes its call as soon as neither is the empty
    string. *)
Theorem retry_guard_is_weaker
    (generateText : request → completion jsstring)
    (OPENAI_API_KEY : option jsstring) (s : CodeIterator.state) :
  key_missing OPENAI_API_KEY = false →
  forallb is_js_ws (CodeIterator.code s) = true
  ∨ forallb is_js_ws (CodeIterator.prompt s) = true →
  calls (CodeIterator.handleSubmit generateText OPENAI_API_KEY s) = []
  ∧ calls (CodeIterator.handleRetry generateText OPENAI_API_KEY s)
    = match CodeIterator.code s, CodeIterator.prompt s with
      | _ :: _, _ :: _ =>
        [generation_request (CodeIterator.code s)
           (CodeIterator.prompt s ++ CodeIterator.hint)]
      | _, _ => []
      end.
Proof.
  intros Hk Hb. split.
  - unfold calls.
    destruct (forallb is_js_ws (CodeIterator.code s)) eqn:Hc.
    + rewrite handleSubmit_blank_code; [done|by apply blank_iff].
    + destruct Hb as [Hb|Hb]; [done|].
      rewrite handleSubmit_blank_prompt;
        [done | by rewrite blank_dec, Hc | by apply blank_iff].
  - destruct (CodeIterator.code s) as [|c cs] eqn:Ec.
    { unfold calls, CodeIterator.handleRetry. by rewrite Ec. }
    destruct (CodeIterator.prompt s) as [|p ps] eqn:Ep.
    { unfold calls, CodeIterator.handleRetry. by rewrite Ec, Ep. }
    destruct (iterateCode_spec generateText OPENAI_API_KEY (CodeIterator.code s)
                (CodeIterator.prompt s ++ CodeIterator.hint)) as (r & Hrun & _).
    rewrite Hk in Hrun. unfold calls. rewrite <- Ec, <- Ep.
    assert (CodeIterator.code s ≠ []) as Nc by congruence.
    assert (CodeIterator.prompt s ≠ []) as Np by congruence.
    destruct r as [r|e].
    + by rewrite (handleRetry_returned _ _ s r _ Nc Np Hrun).
    + by rewrite (handleRetry_thrown _ _ s e _ Nc Np Hrun).
Qed.

Lemma retry_guard_is_weaker_witness :
  calls (CodeIterator.handleSubmit (Sample.answering Sample.exact_reply) Sample.key
           Demo.blank_code) = []
  ∧ calls (CodeIterator.handleRetry (Sample.answering Sample.exact_reply) Sample.key
             Demo.blank_code)
    = [generation_request (js "  ") (Sample.prompt ++ CodeIterator.hint)].
Proof.
  apply (retry_guard_is_weaker (Sample.answering Sample.exact_reply) Sample.key
           Demo.blank_code).
  - reflexivity.
  - left. reflexivity.
Defined.

(** X14.  [handleIntegrate] never throws and only ever changes the final
    code: without a response it changes nothing and shows no toast, with
    one it sets the final code to the response's [modifiedCode] and shows
    the integration toast. *)
Theorem handleIntegrate_never_throws (s : CodeIterator.state) :
  ∃ s' toasts,
    CodeIterator.handleIntegrate s = Return (s', toasts)
    ∧ CodeIterator.code s' = CodeIterator.code s
    ∧ CodeIterator.prompt s' = CodeIterator.prompt s
    ∧ CodeIterator.response s' = CodeIterator.response s
    ∧ CodeIterator.isLoading s' = CodeIterator.isLoading s
    ∧ CodeIterator.error s' = CodeIterator.error s
    ∧ (if truthy (CodeIterator.response s)
       then get_field (CodeIterator.response s) (js "modifiedCode")
            = Return (CodeIterator.finalCode s')
            ∧ toasts = [CodeIterator.integrated_toast]
       else s' = s ∧ toasts = []).
Proof.
  unfold CodeIterator.handleIntegrate.
  destruct (truthy (CodeIterator.response s)) eqn:T; [|by exists s, []].
  destruct (get_field_returns (CodeIterator.response s) (js "modifiedCode"))
    as [mc Hm]; [by intros H; rewrite H in T..|].
  rewrite Hm. by do 2 eexists.
Qed.

(** X15.  After a submit of a code and a prompt that are not blank that
    ended without error, [handleIntegrate] shows the integration toast
    and sets the final code to the [modifiedCode] of the response, a
    truthy value, so that the guard [finalCode &&] of the final-output
    card holds. *)
Theorem submit_then_integrate
    (generateText : request → completion jsstring)
    (OPENAI_API_KEY : option jsstring)
    (s s1 : CodeIterator.state) (toasts : list CodeIterator.toast)
    (log : list request) :
  forallb is_js_ws (CodeIterator.code s) = false →
  forallb is_js_ws (CodeIterator.prompt s) = false →
  CodeIterator.handleSubmit generateText OPENAI_API_KEY s []
  = (Return (s1, toasts), log) →
  CodeIterator.error s1 = None →
  ∃ s2,
    CodeIterator.handleIntegrate s1 = Return (s2, [CodeIterator.integrated_toast])
    ∧ get_field (CodeIterator.response s1) (js "modifiedCode")
      = Return (CodeIterator.finalCode s2)
    ∧ CodeIterator.final_guard s2 = true.
Proof.
  intros Hc Hp Hrun He.
  assert (truthy (Str (trim (CodeIterator.code s))) = true) as Tc
    by (by rewrite blank_dec, Hc).
  assert (truthy (Str (trim (CodeIterator.prompt s))) = true) as Tp
    by (by rewrite blank_dec, Hp).
  destruct (iterateCode_spec generateText OPENAI_API_KEY
              (CodeIterator.code s) (CodeIterator.prompt s)) as (c & Hit & H).
  destruct c as [r|e].
  - destruct H as (mc & ex & -> & Tm & Te).
    rewrite (handleSubmit_returned _ _ s mc ex _ Tc Tp Hit Tm Te) in Hrun.
    simplify_eq. unfold CodeIterator.handleIntegrate.
    cbn [CodeIterator.response CodeIterator.setIsLoading CodeIterator.setError
         CodeIterator.setResponse].
    rewrite result_modifiedCode. change (truthy (result mc ex)) with true.
    cbn iota. eexists. split; [reflexivity|]. by split.
  - rewrite (handleSubmit_thrown _ _ s e _ Tc Tp Hit) in Hrun. by simplify_eq.
Qed.

Lemma submit_then_integrate_witness :
  CodeIterator.handleSubmit (Sample.answering Sample.exact_reply) Sample.key
    Demo.typed []
  = (Return (Demo.answered, []), [generation_request Sample.code Sample.prompt])
  ∧ ∃ s2,
      CodeIterator.handleIntegrate Demo.answered
      = Return (s2, [CodeIterator.integrated_toast])
      ∧ CodeIterator.finalCode s2 = Str (js "function f(){console.log(1)}")
      ∧ CodeIterator.final_guard s2 = true.
Proof.
  split; [vm_compute; reflexivity|].
  destruct (submit_then_integrate (Sample.answering Sample.exact_reply) Sample.key
              Demo.typed Demo.answered []
              [generation_request Sample.code Sample.prompt])
    as (s2 & Hi & Hf & Hs).
  - reflexivity.
  - reflexivity.
  - vm_compute. reflexivity.
  - reflexivity.
  - exists s2. split; [exact Hi|]. split; [|exact Hs].
    vm_compute in Hf. by simplify_eq.
Defined.

(** X16.  After a submit of a code and a prompt that are not blank, the
    guards [response &&] and [error &&] never hold together: without an
    error the guard of the response card holds and that of the error
    card does not; with an error the guard of the response card does not
    hold, and that of the error card holds unless the message is
    empty. *)
Theorem card_guards_after_submit
    (generateText : request → completion jsstring)
    (OPENAI_API_KEY : option jsstring)
    (s s1 : CodeIterator.state) (toasts : list CodeIterator.toast)
    (log : list request) :
  forallb is_js_ws (CodeIterator.code s) = false →
  forallb is_js_ws (CodeIterator.prompt s) = false →
  CodeIterator.handleSubmit generateText OPENAI_API_KEY s []
  = (Return (s1, toasts), log) →
  match CodeIterator.error s1 with
  | None => CodeIterator.response_guard s1 = true
            ∧ CodeIterator.error_guard s1 = false
  | Some message =>
    CodeIterator.response_guard s1 = false
    ∧ CodeIterator.error_guard s1 = truthy (Str message)
  end.
Proof.
  intros Hc Hp Hrun.
  assert (truthy (Str (trim (CodeIterator.code s))) = true) as Tc
    by (by rewrite blank_dec, Hc).
  assert (truthy (Str (trim (CodeIterator.prompt s))) = true) as Tp
    by (by rewrite blank_dec, Hp).
  destruct (iterateCode_spec generateText OPENAI_API_KEY
              (CodeIterator.code s) (CodeIterator.prompt s)) as (c & Hit & H).
  destruct c as [r|e].
  - destruct H as (mc & ex & -> & Tm & Te).
    rewrite (handleSubmit_returned _ _ s mc ex _ Tc Tp Hit Tm Te) in Hrun.
    by simplify_eq.
  - rewrite (handleSubmit_thrown _ _ s e _ Tc Tp Hit) in Hrun. by simplify_eq.
Qed.

Lemma card_guards_after_submit_witness :
  CodeIterator.handleSubmit Demo.failing Sample.key Demo.typed []
  = (Return (Demo.failed, [CodeIterator.error_toast (js "rate limit exceeded")]),
     [generation_request Sample.code Sample.prompt])
  ∧ CodeIterator.response_guard Demo.failed = false
  ∧ CodeIterator.error_guard Demo.failed = true.
Proof.
  split; [vm_compute; reflexivity|].
  apply (card_guards_after_submit Demo.failing Sample.key Demo.typed Demo.failed
           [CodeIterator.error_toast (js "rate limit exceeded")]
           [generation_request Sample.code Sample.prompt]).
  - reflexivity.
  - reflexivity.
  - vm_compute. reflexivity.
Defined.

(** X17.  A reply that is not JSON and has no brace span that is JSON is
    no failure: [iterateCode] returns the raw text with the diagnostic,
    the placeholder comment standing in for an empty text, and the route
    handler answers 200 with the raw text, even empty, and the
    diagnostic. *)
Theorem unparseable_reply_passes_through
    (NumberToString : decimal → jsstring)
    (generateText : request → completion jsstring)
    (OPENAI_API_KEY : option jsstring)
    (code prompt req_body text : jsstring) :
  key_missing OPENAI_API_KEY = false →
  generateText (generation_request code prompt) = Return text →
  IterationRequest_of req_body = Some (code, prompt) →
  JSON_parse text = None →
  (∀ span, match_braces text = Some span → JSON_parse span = None) →
  Actions.iterateCode generateText OPENAI_API_KEY code prompt []
  = (Return (result (Str (match text with
                          | [] => Actions.placeholder
                          | _ :: _ => text
                          end)) (Str diagnostic)),
     [generation_request code prompt])
  ∧ Route.POST NumberToString generateText OPENAI_API_KEY req_body []
    = (Return (Route.Response 200 (result (Str text) (Str diagnostic))),
       [generation_request code prompt]).
Proof.
  intros Hk Hg Hr Ht Hs.
  pose proof (safeJsonParse_synthetic text Ht Hs) as Hp. split.
  - rewrite (iterateCode_run _ _ code prompt text (Str text) (Str diagnostic) Hk Hg).
    + by destruct text.
    + by rewrite Hp, result_modifiedCode.
    + by rewrite Hp, result_explanation.
  - rewrite (POST_run NumberToString _ _ _ _ _ _ Hr Hk Hg).
    by rewrite Route_safeJsonParse_eq, Hp.
Qed.

Lemma unparseable_reply_passes_through_witness :
  Actions.iterateCode (Sample.answering Sample.prose_reply) Sample.key
    Sample.code Sample.prompt []
  = (Return (result (Str Sample.prose_reply) (Str diagnostic)),
     [generation_request Sample.code Sample.prompt])
  ∧ Route.POST Sample.NumberToString (Sample.answering Sample.prose_reply) Sample.key
      Sample.req_body []
    = (Return (Route.Response 200 (result (Str Sample.prose_reply) (Str diagnostic))),
       [generation_request Sample.code Sample.prompt]).
Proof.
  apply (unparseable_reply_passes_through Sample.NumberToString
           (Sample.answering Sample.prose_reply) Sample.key
           Sample.code Sample.prompt Sample.req_body Sample.prose_reply).
  - reflexivity.
  - reflexivity.
  - vm_compute. reflexivity.
  - vm_compute. reflexivity.
  - intros span H. vm_compute in H. discriminate H.
Defined.

